(** * python/protobuf.c: object cache, arena wrappers and module life cycle

    A shallow embedding of the C extension module [python/protobuf.c] of upb's
    Python bindings.  The C functions are translated into a small state and
    error monad over a [World]: the Python heap (objects with their reference
    counts), the native arenas that are currently allocated, the interpreter's
    slot for the extension module, and the error indicator. *)

From Stdlib Require Import ZArith List String Ascii Lia.
From stdpp Require Import base tactics option list gmap.

Open Scope Z_scope.

(** ** Pointers, values and the integer table *)

(** A C pointer is its address; [NULL] is address 0. *)
Abbreviation ptr := Z (only parsing).
Definition NULL : ptr := 0.

(** Modelled from the spec: [upb_value] (upb/table.h, not among the sources)
    as the cache uses it, a non-owning reference to the wrapper: the stored
    word is the pointer, [upb_value_ptr] and [upb_value_getptr] convert. *)
Abbreviation upb_value := Z (only parsing).
Definition upb_value_ptr (p : ptr) : upb_value := p.
Definition upb_value_getptr (v : upb_value) : ptr := v.

(** What a C call can do besides returning: fail an [assert], or touch memory
    that is not a live object (a null or dangling pointer). *)
Inductive outcome (A : Type) : Type :=
| Ok (a : A)
| AssertFail
| Fault.
Arguments Ok {A} a.
Arguments AssertFail {A}.
Arguments Fault {A}.

Module Table.

(** Modelled from the spec: upb_inttable and its operations (upb/table.c) are
    not among the sources.  The spec describes the cache as a hash table keyed
    by the raw address value, to which [Add] inserts a mapping, from which
    [Remove] deletes the mapping of a key, and in which [Get] looks a key up.
    The table is kept as the chain of its entries, newest first: an entry is
    a key with its value, a lookup takes the first entry of the key. *)
Definition upb_inttable : Type := list (Z * upb_value).

(** Modelled from the spec: [upb_inttable_init] gives the empty table. *)
Definition upb_inttable_init : upb_inttable := [].

(** Modelled from the spec: [upb_inttable_lookup]; [Some v] stands for a true
    return with [*v] written, [None] for a false return. *)
Fixpoint upb_inttable_lookup (t : upb_inttable) (key : Z) : option upb_value :=
  match t with
  | [] => None
  | (k, v) :: t' => if Z.eqb k key then Some v else upb_inttable_lookup t' key
  end.

(** Modelled from the spec: [upb_inttable_insert].  The spec makes the
    absence of a live entry for the key the precondition of [Add], whose
    violation is an internal-consistency error of the abort class that must
    not silently overwrite; [PyUpb_ObjCache_Add] has no check of its own, so
    the check is the table's assertion. *)
Definition upb_inttable_insert (t : upb_inttable) (key : Z) (val : upb_value)
  : outcome upb_inttable :=
  match upb_inttable_lookup t key with
  | Some _ => AssertFail
  | None => Ok ((key, val) :: t)
  end.

(** Modelled from the spec: [upb_inttable_remove] unlinks the entry of the
    key.  The removed value is reported through an out-parameter that is
    written only when an entry was found ([Some v]), as for the lookup, whose
    out-parameter [PyUpb_ObjCache_Get] reads only under a true return. *)
Fixpoint upb_inttable_remove (t : upb_inttable) (key : Z)
  : option upb_value * upb_inttable :=
  match t with
  | [] => (None, [])
  | (k, v) :: t' =>
      if Z.eqb k key then (Some v, t')
      else let '(r, t'') := upb_inttable_remove t' key in (r, (k, v) :: t'')
  end.

Definition keys (t : upb_inttable) : list Z := map fst t.

End Table.
Export Table.

(** ** The Python heap and the world *)

(** Modelled from the spec: [PyUpb_ModuleState] is declared in protobuf.h,
    which is not among the sources.  The runtime state holds the cache table,
    the arena that stores the table, and the handles of the registered wrapper
    types, of which this file uses the one of the arena wrapper. *)
Record PyUpb_ModuleState : Type := {
  obj_cache : upb_inttable;
  obj_cache_arena : ptr;
  arena_type : ptr
}.

(** What an object holds after its [PyObject_HEAD]. *)
Inductive PyBody : Type :=
| ModuleBody (md_state : PyUpb_ModuleState)  (* a module created from module_def *)
| ArenaBody (arena : ptr)                    (* PyUpb_Arena *)
| ClassBody (name : string)                  (* a type object and its __name__ *)
| PlainBody.                                 (* storage of any other instance *)

Record PyObject : Type := {
  ob_refcnt : Z;
  ob_body : PyBody
}.

Inductive PyExc : Type := PyExc_RuntimeError | PyExc_TypeError | PyExc_AttributeError.

Record World : Type := {
  objects : gmap Z PyObject;        (* live Python objects, by address *)
  next_object : Z;                  (* the allocator's next object address *)
  live_arenas : gset Z;             (* upb arenas created and not yet freed *)
  next_arena : Z;                   (* the allocator's next arena address *)
  modules_by_index : option ptr;    (* the interpreter's slot of module_def *)
  err_indicator : option (PyExc * string)
}.

Definition set_objects (f : gmap Z PyObject -> gmap Z PyObject) (w : World) : World :=
  {| objects := f (objects w); next_object := next_object w;
     live_arenas := live_arenas w; next_arena := next_arena w;
     modules_by_index := modules_by_index w; err_indicator := err_indicator w |}.

Definition set_modules_by_index (s : option ptr) (w : World) : World :=
  {| objects := objects w; next_object := next_object w;
     live_arenas := live_arenas w; next_arena := next_arena w;
     modules_by_index := s; err_indicator := err_indicator w |}.

Definition set_err_indicator (e : option (PyExc * string)) (w : World) : World :=
  {| objects := objects w; next_object := next_object w;
     live_arenas := live_arenas w; next_arena := next_arena w;
     modules_by_index := modules_by_index w; err_indicator := e |}.

(** The world before the module is loaded. *)
Definition World0 : World :=
  {| objects := ∅; next_object := 1; live_arenas := ∅; next_arena := 1;
     modules_by_index := None; err_indicator := None |}.

(** ** The monad of C calls *)

Definition M (A : Type) : Type := World -> outcome (A * World).

Definition ret {A} (a : A) : M A := fun w => Ok (a, w).

Definition bind {A B} (c : M A) (k : A -> M B) : M B :=
  fun w => match c w with
           | Ok (a, w') => k a w'
           | AssertFail => AssertFail
           | Fault => Fault
           end.

Declare Scope c_scope.
Delimit Scope c_scope with C.
Notation "'let!' x ':=' c 'in' k" := (bind c (fun x => k))
  (at level 10, x name, c at level 100, k at level 200) : c_scope.
Notation "c1 ';;;' c2" := (bind c1 (fun _ => c2))
  (at level 100, c2 at level 200, right associativity) : c_scope.
Open Scope c_scope.

Definition get_world : M World := fun w => Ok (w, w).
Definition modify (f : World -> World) : M unit := fun w => Ok (tt, f w).
Definition assert (b : bool) : M unit := fun w => if b then Ok (tt, w) else AssertFail.
Definition fault {A} : M A := fun _ => Fault.

(** Reading an object through a pointer: a fault unless it is live.  No
    object lives at NULL in a well-formed world ([wf_object_range] below). *)
Definition deref (p : ptr) : M PyObject :=
  fun w => match objects w !! p with
           | Some o => Ok (o, w)
           | None => Fault
           end.

Definition store (p : ptr) (o : PyObject) : M unit :=
  modify (set_objects (fun h => <[p := o]> h)).

Definition release (p : ptr) : M unit :=
  modify (set_objects (fun h => delete p h)).

(** Allocation of object storage: a fresh address. *)
Definition alloc_object (o : PyObject) : M ptr :=
  fun w => Ok (next_object w,
               {| objects := <[next_object w := o]> (objects w);
                  next_object := next_object w + 1;
                  live_arenas := live_arenas w; next_arena := next_arena w;
                  modules_by_index := modules_by_index w;
                  err_indicator := err_indicator w |}).

(** ** The native allocator *)

Definition upb_arena_new : M ptr :=
  fun w => Ok (next_arena w,
               {| objects := objects w; next_object := next_object w;
                  live_arenas := {[next_arena w]} ∪ live_arenas w;
                  next_arena := next_arena w + 1;
                  modules_by_index := modules_by_index w;
                  err_indicator := err_indicator w |}).

Definition upb_arena_free (a : ptr) : M unit :=
  fun w => if decide (a ∈ live_arenas w)
           then Ok (tt, {| objects := objects w; next_object := next_object w;
                           live_arenas := live_arenas w ∖ {[a]};
                           next_arena := next_arena w;
                           modules_by_index := modules_by_index w;
                           err_indicator := err_indicator w |})
           else Fault.

Definition lift {A} (r : outcome A) : M A :=
  fun w => match r with
           | Ok a => Ok (a, w)
           | AssertFail => AssertFail
           | Fault => Fault
           end.

(** ** The host object model (CPython), as far as this file uses it *)

Definition with_refcnt (n : Z) (o : PyObject) : PyObject :=
  {| ob_refcnt := n; ob_body := ob_body o |}.

Definition with_body (b : PyBody) (o : PyObject) : PyObject :=
  {| ob_refcnt := ob_refcnt o; ob_body := b |}.

Definition Py_INCREF (op : ptr) : M unit :=
  let! o := deref op in
  store op (with_refcnt (ob_refcnt o + 1) o).

Definition PyErr_SetString (exc : PyExc) (msg : string) : M unit :=
  modify (set_err_indicator (Some (exc, msg))).

(** [PyModule_GetState]: the per-module state, [None] (NULL, with an error set)
    for an object that is not a module. *)
Definition PyModule_GetState (module : ptr) : M (option PyUpb_ModuleState) :=
  let! o := deref module in
  match ob_body o with
  | ModuleBody st => ret (Some st)
  | _ => PyErr_SetString PyExc_TypeError "bad argument type for built-in operation" ;;;
         ret None
  end.

(** [PyState_FindModule(&module_def)]: a borrowed reference, or NULL. *)
Definition PyState_FindModule : M ptr :=
  fun w => Ok (match modules_by_index w with Some m => m | None => NULL end, w).

(** The state is zero-filled by [PyModule_Create]. *)
Definition zero_state : PyUpb_ModuleState :=
  {| obj_cache := []; obj_cache_arena := NULL; arena_type := NULL |}.

Definition PyModule_Create : M ptr :=
  alloc_object {| ob_refcnt := 1; ob_body := ModuleBody zero_state |}.

(** [PyType_GenericAlloc(type, 0)]: zero-filled storage with one reference. *)
Definition PyType_GenericAlloc (type : ptr) : M ptr :=
  let! t := deref type in
  match ob_body t with
  | ClassBody _ => alloc_object {| ob_refcnt := 1; ob_body := PlainBody |}
  | _ => fault
  end.

(** Modelled from the spec: [PyUpb_Dealloc] (protobuf.h, not among the
    sources) is the last step of a wrapper's destruction and frees the
    wrapper's own storage. *)
Definition PyUpb_Dealloc (self : ptr) : M unit := release self.

(** ** protobuf.c *)

(** A pointer to the module state is kept as the address of its module;
    [s->field] reads and writes go through the module object. *)
Definition read_state (s : ptr) : M PyUpb_ModuleState :=
  let! o := deref s in
  match ob_body o with
  | ModuleBody st => ret st
  | _ => fault
  end.

Definition write_state (s : ptr) (st : PyUpb_ModuleState) : M unit :=
  let! o := deref s in
  store s (with_body (ModuleBody st) o).

Definition PyUpb_ModuleDealloc (module : ptr) : M unit :=
  let! s := PyModule_GetState module in
  match s with
  | Some st => upb_arena_free (obj_cache_arena st)
  | None => fault
  end.

Definition PyUpb_ModuleState_GetFromModule (module : ptr) : M ptr :=
  let! state := PyModule_GetState module in
  assert (bool_decide (is_Some state)) ;;;
  (* PyModule_GetDef(module) == &module_def: the only definition there is *)
  assert true ;;;
  ret module.

Definition PyUpb_ModuleState_Get : M ptr :=
  let! module := PyState_FindModule in
  PyUpb_ModuleState_GetFromModule module.

(** *** ObjectCache *)

Definition PyUpb_ObjCache_Add (key : ptr) (py_obj : ptr) : M unit :=
  let! s := PyUpb_ModuleState_Get in
  let! st := read_state s in
  let! t := lift (upb_inttable_insert (obj_cache st) key (upb_value_ptr py_obj)) in
  write_state s {| obj_cache := t; obj_cache_arena := obj_cache_arena st;
                   arena_type := arena_type st |}.

(** [val_init] is what the automatic variable [val], declared without an
    initialiser, happens to hold when the function is entered. *)
Definition PyUpb_ObjCache_Delete (val_init : upb_value) (key : ptr) : M unit :=
  let! s := PyUpb_ModuleState_Get in
  let! st := read_state s in
  let '(removed, t) := upb_inttable_remove (obj_cache st) key in
  let val := match removed with Some v => v | None => val_init end in
  write_state s {| obj_cache := t; obj_cache_arena := obj_cache_arena st;
                   arena_type := arena_type st |} ;;;
  assert (negb (upb_value_getptr val =? NULL)).

Definition PyUpb_ObjCache_Get (key : ptr) : M ptr :=
  let! s := PyUpb_ModuleState_Get in
  let! st := read_state s in
  match upb_inttable_lookup (obj_cache st) key with
  | Some val =>
      let ret_ := upb_value_getptr val in
      Py_INCREF ret_ ;;;
      ret ret_
  | None => ret NULL
  end.

(** *** Arena *)

Definition PyUpb_Arena_New : M ptr :=
  let! state := PyUpb_ModuleState_Get in
  let! st := read_state state in
  let! arena := PyType_GenericAlloc (arena_type st) in
  let! a := upb_arena_new in
  let! o := deref arena in
  store arena (with_body (ArenaBody a) o) ;;;
  ret arena.

Definition PyUpb_Arena_Get (arena : ptr) : M ptr :=
  let! o := deref arena in
  match ob_body o with
  | ArenaBody a => ret a
  | _ => fault
  end.

Definition PyUpb_Arena_Dealloc (self : ptr) : M unit :=
  let! a := PyUpb_Arena_Get self in
  upb_arena_free a ;;;
  PyUpb_Dealloc self.

(** *** Releasing a reference *)

(** [module_dealloc] of CPython: the definition's [m_free] hook, here
    [PyUpb_ModuleDealloc], runs before the module's storage is released. *)
Definition module_dealloc (m : ptr) : M unit :=
  PyUpb_ModuleDealloc m ;;;
  release m.

(** The [tp_dealloc] slot of the object: [PyUpb_Arena_Slots] for an arena
    wrapper, the module type's for a module, plain release otherwise. *)
Definition tp_dealloc (op : ptr) : M unit :=
  let! o := deref op in
  match ob_body o with
  | ModuleBody _ => module_dealloc op
  | ArenaBody _ => PyUpb_Arena_Dealloc op
  | ClassBody _ | PlainBody => release op
  end.

Definition Py_DECREF (op : ptr) : M unit :=
  let! o := deref op in
  let n := ob_refcnt o - 1 in
  store op (with_refcnt n o) ;;;
  if n =? 0 then tp_dealloc op else ret tt.

(** [PyState_AddModule(m, &module_def)]: the interpreter takes a reference of
    its own to the module and drops the one to the module that held the slot
    before. *)
Definition PyState_AddModule (module : ptr) : M Z :=
  Py_INCREF module ;;;
  let! w := get_world in
  modify (set_modules_by_index (Some module)) ;;;
  match modules_by_index w with
  | Some old => Py_DECREF old
  | None => ret tt
  end ;;;
  ret 0.

(** *** Utilities *)

(** C's [strrchr]: the suffix that starts at the last occurrence of [c]. *)
Fixpoint strrchr (s : string) (c : ascii) : option string :=
  match s with
  | EmptyString => None
  | String a s' =>
      match strrchr s' c with
      | Some r => Some r
      | None => if Ascii.eqb a c then Some s else None
      end
  end.

Record PyType_Spec : Type := { spec_name : string }.

(** [PYUPB_MODULE_NAME] is defined in protobuf.h; the comment in
    [PyUpb_GetClassName] shows the qualified names it leads to. *)
Definition PYUPB_MODULE_NAME : string := "google.protobuf.pyext._message".

Definition PyUpb_Arena_Spec : PyType_Spec :=
  {| spec_name := String.append PYUPB_MODULE_NAME ".Arena" |}.

Definition PyUpb_GetClassName (spec : PyType_Spec) : M string :=
  let name := strrchr (spec_name spec) "."%char in
  assert (bool_decide (is_Some name)) ;;;
  match name with
  | Some (String _ rest) => ret rest
  | _ => fault
  end.

(** What the registration steps meet in the host and in the files that are not
    modelled: whether each of them succeeds. *)
Record Registration : Type := {
  descriptor_containers_ok : bool;
  descriptor_pool_ok : bool;
  descriptor_ok : bool;
  type_from_spec_ok : bool;
  module_add_object_ok : bool
}.

(** [PyType_FromSpec]: a new class named by the last component of the
    qualified name, or NULL. *)
Definition PyType_FromSpec (ok : bool) (spec : PyType_Spec) : M ptr :=
  if ok then
    let name := match strrchr (spec_name spec) "."%char with
                | Some (String _ rest) => rest
                | _ => spec_name spec
                end in
    alloc_object {| ob_refcnt := 1; ob_body := ClassBody name |}
  else ret NULL.

(** [Py_True] is a static object of the interpreter, outside the heap that
    is tracked here. *)
Definition Py_True : ptr := -1.

(** [PyModule_AddObject]: 0 and the reference is taken over by the module's
    dictionary, or -1. *)
Definition PyModule_AddObject (ok : bool) (m : ptr) (name : string) (value : ptr) : M Z :=
  ret (if ok then 0 else -1).

Definition PyUpb_AddClass (r : Registration) (m : ptr) (spec : PyType_Spec) : M ptr :=
  let! type := PyType_FromSpec (type_from_spec_ok r) spec in
  let! name := PyUpb_GetClassName spec in
  if negb (type =? NULL) then
    let! rc := PyModule_AddObject (module_add_object_ok r) m name type in
    ret (if rc =? 0 then type else NULL)
  else ret NULL.

Definition PyUpb_InitArena (r : Registration) (m : ptr) : M bool :=
  let! state := PyUpb_ModuleState_GetFromModule m in
  let! type := PyUpb_AddClass r m PyUpb_Arena_Spec in
  let! st := read_state state in
  write_state state {| obj_cache := obj_cache st;
                       obj_cache_arena := obj_cache_arena st;
                       arena_type := type |} ;;;
  ret (negb (type =? NULL)).

(** Modelled from the spec: the registration step of descriptor_containers.c,
    which is not among the sources; it registers wrapper type descriptors and
    can fail. *)
Definition PyUpb_InitDescriptorContainers (r : Registration) (m : ptr) : M bool :=
  ret (descriptor_containers_ok r).

(** Modelled from the spec: the registration step of descriptor_pool.c, which
    is not among the sources; it registers wrapper type descriptors and can
    fail. *)
Definition PyUpb_InitDescriptorPool (r : Registration) (m : ptr) : M bool :=
  ret (descriptor_pool_ok r).

(** Modelled from the spec: the registration step of descriptor.c, which is
    not among the sources; it registers wrapper type descriptors and can
    fail. *)
Definition PyUpb_InitDescriptor (r : Registration) (m : ptr) : M bool :=
  ret (descriptor_ok r).

(** C's [a || b]: [b] is evaluated only when [a] is false. *)
Definition orelse (a b : M bool) : M bool :=
  let! x := a in
  if x then ret true else b.

Definition not_ (a : M bool) : M bool :=
  let! x := a in ret (negb x).

(** [PyObject_GetAttrString(o, "__name__")]: a class answers with its name, a
    module with the name of its definition, the other objects of the model
    have no such attribute (NULL, with an error set).  The string object that
    carries the name is kept as its contents: the reference the call returns
    is the one [Py_XDECREF] gives back. *)
Definition PyObject_GetAttrString_name (o : ptr) : M (option string) :=
  let! c := deref o in
  match ob_body c with
  | ClassBody name => ret (Some name)
  | ModuleBody _ => ret (Some PYUPB_MODULE_NAME)
  | _ => PyErr_SetString PyExc_AttributeError "__name__" ;;; ret None
  end.

Definition Py_XDECREF_name (name : option string) : M unit := ret tt.

Definition forbidden_message (name : string) : string :=
  String.append "Objects of type "
    (String.append name " may not be created directly.").

(** [PyErr_Format(exc, "Objects of type %U may not be created directly.", name)]:
    the conversion reads the string object it is given. *)
Definition PyErr_Format_forbidden (exc : PyExc) (name : option string) : M unit :=
  match name with
  | Some n => PyErr_SetString exc (forbidden_message n)
  | None => fault
  end.

Definition PyUpb_Forbidden_New (cls args kwds : ptr) : M ptr :=
  let! name := PyObject_GetAttrString_name cls in
  PyErr_Format_forbidden PyExc_RuntimeError name ;;;
  Py_XDECREF_name name ;;;
  ret NULL.

(** *** Module entry point *)

Definition PyInit__message (r : Registration) : M ptr :=
  let! m := PyModule_Create in
  PyState_AddModule m ;;;
  let! state := PyUpb_ModuleState_Get in
  let! a := upb_arena_new in
  let! st := read_state state in
  write_state state {| obj_cache := upb_inttable_init;
                       obj_cache_arena := a;
                       arena_type := arena_type st |} ;;;
  let! failed :=
    orelse (not_ (PyUpb_InitDescriptorContainers r m))
      (orelse (not_ (PyUpb_InitDescriptorPool r m))
         (orelse (not_ (PyUpb_InitDescriptor r m))
            (not_ (PyUpb_InitArena r m)))) in
  if failed then
    Py_DECREF m ;;;
    ret NULL
  else
    (* the result of this call is not looked at *)
    PyModule_AddObject (module_add_object_ok r) m "_IS_UPB" Py_True ;;;
    ret m.

(** ** Runs of the module *)

(** The calls the host and the other wrapper types make into this file, and
    the reference counting of the host. *)
Inductive Op : Type :=
| OpInit (r : Registration)
| OpAdd (key py_obj : ptr)
| OpDelete (val_init : upb_value) (key : ptr)
| OpGet (key : ptr)
| OpArenaNew
| OpForbiddenNew (cls args kwds : ptr)
| OpIncRef (op : ptr)
| OpDecRef (op : ptr).

Definition discard {A} (c : M A) : M unit := c ;;; ret tt.

Definition step (op : Op) : M unit :=
  match op with
  | OpInit r => discard (PyInit__message r)
  | OpAdd key py_obj => PyUpb_ObjCache_Add key py_obj
  | OpDelete val_init key => PyUpb_ObjCache_Delete val_init key
  | OpGet key => discard (PyUpb_ObjCache_Get key)
  | OpArenaNew => discard (PyUpb_Arena_New)
  | OpForbiddenNew cls args kwds => discard (PyUpb_Forbidden_New cls args kwds)
  | OpIncRef op => Py_INCREF op
  | OpDecRef op => Py_DECREF op
  end.

Fixpoint run (ops : list Op) : M unit :=
  match ops with
  | [] => ret tt
  | op :: ops' => step op ;;; run ops'
  end.

Definition state_after {A} (r : outcome (A * World)) : option World :=
  match r with
  | Ok (_, w) => Some w
  | _ => None
  end.

(** The worlds the module can be in: those a run from the unloaded world
    reaches. *)
Inductive reachable : World -> Prop :=
| reachable_start : reachable World0
| reachable_step w op w' :
    reachable w -> step op w = Ok (tt, w') -> reachable w'.

(** The module [PyState_FindModule] gives, with its state. *)
Definition module_state (w : World) : option (Z * PyObject * PyUpb_ModuleState) :=
  let m := default NULL (modules_by_index w) in
  match objects w !! m with
  | Some o =>
      match ob_body o with
      | ModuleBody st => Some (m, o, st)
      | _ => None
      end
  | None => None
  end.

(** The cache of the loaded module, if there is one. *)
Definition cache_of (w : World) : option upb_inttable :=
  match module_state w with
  | Some (_, _, st) => Some (obj_cache st)
  | None => None
  end.

(** The world with the cache of the loaded module replaced. *)
Definition with_cache (t : upb_inttable) (w : World) : World :=
  match module_state w with
  | Some (m, o, st) =>
      set_objects
        (fun h => <[m := with_body (ModuleBody {| obj_cache := t;
                                                  obj_cache_arena := obj_cache_arena st;
                                                  arena_type := arena_type st |}) o]> h)
        w
  | None => w
  end.

(** The world with one more reference to a live object. *)
Definition with_incref (p : ptr) (w : World) : World :=
  match objects w !! p with
  | Some o => set_objects (fun h => <[p := with_refcnt (ob_refcnt o + 1) o]> h) w
  | None => w
  end.

(** A registration in which every step succeeds, and the loaded module. *)
Definition all_ok : Registration :=
  {| descriptor_containers_ok := true; descriptor_pool_ok := true;
     descriptor_ok := true; type_from_spec_ok := true;
     module_add_object_ok := true |}.

(** A registration whose first step fails. *)
Definition containers_fail : Registration :=
  {| descriptor_containers_ok := false; descriptor_pool_ok := true;
     descriptor_ok := true; type_from_spec_ok := true;
     module_add_object_ok := true |}.

Definition world_of (r : outcome (unit * World)) : World :=
  match r with
  | Ok (_, w) => w
  | _ => World0
  end.

Definition loaded : World := world_of (run [OpInit all_ok] World0).

(** The loaded module with one arena wrapper, at address 3, registered in the
    cache under the key 4096. *)
Definition sample : World :=
  world_of (run [OpInit all_ok; OpArenaNew; OpAdd 4096 3] World0).

(** ** Ownership of arenas *)

(** The arena an object holds and will free: the one of an arena wrapper, the
    storage arena of a module.  A zero-filled field holds none. *)
Definition owned_arena (o : PyObject) : option Z :=
  match ob_body o with
  | ModuleBody st =>
      if obj_cache_arena st =? NULL then None else Some (obj_cache_arena st)
  | ArenaBody a => if a =? NULL then None else Some a
  | ClassBody _ | PlainBody => None
  end.

(** At most one entry per key in the cache of a module. *)
Definition cache_ok (o : PyObject) : Prop :=
  match ob_body o with
  | ModuleBody st => NoDup (keys (obj_cache st))
  | _ => True
  end.

Record wf (w : World) : Prop := {
  wf_object_range : forall p o, objects w !! p = Some o -> 0 < p < next_object w;
  wf_arena_range : forall a, a ∈ live_arenas w -> 0 < a < next_arena w;
  wf_owned_live : forall p o a,
    objects w !! p = Some o -> owned_arena o = Some a -> a ∈ live_arenas w;
  wf_owned_once : forall p q o o' a,
    objects w !! p = Some o -> objects w !! q = Some o' ->
    owned_arena o = Some a -> owned_arena o' = Some a -> p = q;
  wf_cache : forall p o, objects w !! p = Some o -> cache_ok o;
  wf_next_object : 0 < next_object w;
  wf_next_arena : 0 < next_arena w
}.

(** How a later world relates to an earlier one: addresses are not handed out
    twice, an owner keeps its arena for as long as it exists and takes the
    arena with it when it goes. *)
Record evolves (w w' : World) : Prop := {
  ev_objects : next_object w <= next_object w';
  ev_arenas : next_arena w <= next_arena w';
  ev_owner : forall p o a,
    objects w !! p = Some o -> owned_arena o = Some a ->
    (exists o', objects w' !! p = Some o' /\ owned_arena o' = Some a) \/
    (objects w' !! p = None /\ a ∉ live_arenas w');
  ev_wrapper : forall p o a o',
    objects w !! p = Some o -> ob_body o = ArenaBody a ->
    objects w' !! p = Some o' -> ob_body o' = ArenaBody a;
  ev_released : forall p,
    p < next_object w -> objects w !! p = None -> objects w' !! p = None;
  ev_freed : forall a,
    a < next_arena w -> a ∉ live_arenas w -> a ∉ live_arenas w'
}.

(** The calls on the cache that leave the entry of [key] alone, but for the
    one named. *)
Definition cache_call_but_remove (key : ptr) (op : Op) : Prop :=
  match op with
  | OpAdd _ _ | OpGet _ => True
  | OpDelete _ k => k <> key
  | _ => False
  end.

Definition cache_call_but_add (key : ptr) (op : Op) : Prop :=
  match op with
  | OpDelete _ _ | OpGet _ => True
  | OpAdd k _ => k <> key
  | _ => False
  end.

(** The parts of the world the allocators own. *)
Definition same_alloc (w w' : World) : Prop :=
  next_object w' = next_object w /\ live_arenas w' = live_arenas w /\
  next_arena w' = next_arena w.

(** A call keeps the world well-formed and only lets it evolve. *)
Definition sound {A} (c : M A) : Prop :=
  forall w r w', wf w -> c w = Ok (r, w') -> wf w' /\ evolves w w'.

(** The world after [upb_arena_new]. *)
Definition arena_added (w : World) : World :=
  {| objects := objects w; next_object := next_object w;
     live_arenas := {[next_arena w]} ∪ live_arenas w;
     next_arena := next_arena w + 1;
     modules_by_index := modules_by_index w;
     err_indicator := err_indicator w |}.

(** The world after a successful [PyUpb_Arena_New]. *)
Definition world_with_wrapper (w : World) : World :=
  {| objects := <[next_object w := {| ob_refcnt := 1;
                                      ob_body := ArenaBody (next_arena w) |}]>
                  (objects w);
     next_object := next_object w + 1;
     live_arenas := {[next_arena w]} ∪ live_arenas w;
     next_arena := next_arena w + 1;
     modules_by_index := modules_by_index w;
     err_indicator := err_indicator w |}.

(** ** Further utilities of protobuf.c *)


(** The characters of a string. *)
Fixpoint chars (s : string) : list ascii :=
  match s with
  | EmptyString => []
  | String a s' => a :: chars s'
  end.



(** The state of every module object has its storage arena set. *)
Definition armed (w : World) : Prop :=
  forall p o st,
    objects w !! p = Some o -> ob_body o = ModuleBody st ->
    obj_cache_arena st <> NULL.

(** A call keeps the module states set. *)
Definition keeps_armed {A} (c : M A) : Prop :=
  forall w r w', armed w -> c w = Ok (r, w') -> armed w'.

(** ** String data *)

(** The argument of [PyUpb_GetStrData], as far as the function tells objects
    apart: a str with its code points, a bytes object with its buffer, or any
    other object. *)
Inductive PyStrLike : Type :=
| PyUnicode (code_points : list Z)
| PyBytes (ob_sval : list Z)
| PyOtherObject.

Definition is_surrogate (c : Z) : bool := (55296 <=? c) && (c <=? 57343).

(** The UTF-8 bytes of one code point; a surrogate has none. *)
Definition utf8_char (c : Z) : option (list Z) :=
  if c <? 128 then Some [c]
  else if c <? 2048 then
    Some [Z.lor 192 (Z.shiftr c 6); Z.lor 128 (Z.land c 63)]
  else if c <? 65536 then
    if is_surrogate c then None
    else Some [Z.lor 224 (Z.shiftr c 12);
               Z.lor 128 (Z.land (Z.shiftr c 6) 63);
               Z.lor 128 (Z.land c 63)]
  else
    Some [Z.lor 240 (Z.shiftr c 18);
          Z.lor 128 (Z.land (Z.shiftr c 12) 63);
          Z.lor 128 (Z.land (Z.shiftr c 6) 63);
          Z.lor 128 (Z.land c 63)].

(** [PyUnicode_AsUTF8AndSize(obj, NULL)]: the UTF-8 form of the str, or NULL
    with UnicodeEncodeError set when a code point cannot be encoded. *)
Fixpoint PyUnicode_AsUTF8AndSize (code_points : list Z) : option (list Z) :=
  match code_points with
  | [] => Some []
  | c :: rest =>
      match utf8_char c, PyUnicode_AsUTF8AndSize rest with
      | Some b, Some bs => Some (b ++ bs)
      | _, _ => None
      end
  end.

(** What the caller of [PyUpb_GetStrData] gets: a buffer, NULL with an
    exception set, or NULL with none set. *)
Inductive StrData : Type :=
| Data (buf : list Z)
| NullErrorSet
| NullNoError.

Definition PyUpb_GetStrData (obj : PyStrLike) : StrData :=
  match obj with
  | PyUnicode code_points =>
      match PyUnicode_AsUTF8AndSize code_points with
      | Some buf => Data buf
      | None => NullErrorSet
      end
  | PyBytes ob_sval => Data ob_sval
  | PyOtherObject => NullNoError
  end.

(** A buffer read as a C string: the bytes before the first 0. *)
Fixpoint c_string (buf : list Z) : list Z :=
  match buf with
  | [] => []
  | b :: rest => if b =? 0 then [] else b :: c_string rest
  end.

(** * Facts *)

(** ** The table *)

Section TableFacts.

Implicit Types (t : upb_inttable) (k key : Z) (v : upb_value).

Lemma lookup_None_keys t key :
  upb_inttable_lookup t key = None <-> ~ In key (keys t).
Proof.
  induction t as [|[k v] t IH]; simpl; [tauto|].
  destruct (Z.eqb_spec k key); [split; [discriminate | tauto]|].
  rewrite IH. tauto.
Qed.

Lemma lookup_Some_In t key v :
  upb_inttable_lookup t key = Some v -> In (key, v) t.
Proof.
  induction t as [|[k v'] t IH]; simpl; [discriminate|].
  destruct (Z.eqb_spec k key); [intros [= ->]; subst; auto | auto].
Qed.

Lemma In_keys t key v : In (key, v) t -> In key (keys t).
Proof. intros H. apply (in_map fst) in H. exact H. Qed.

Lemma NoDup_keys_functional t key v1 v2 :
  NoDup (keys t) -> In (key, v1) t -> In (key, v2) t -> v1 = v2.
Proof.
  induction t as [|[k v] t IH]; simpl; [tauto|].
  rewrite NoDup_cons. intros [Hk Hnd] [H1|H1] [H2|H2]; simplify_eq; auto.
  - exfalso. apply Hk, list_elem_of_In. eauto using In_keys.
  - exfalso. apply Hk, list_elem_of_In. eauto using In_keys.
Qed.

Lemma In_lookup t key v :
  NoDup (keys t) -> In (key, v) t -> upb_inttable_lookup t key = Some v.
Proof.
  intros Hnd Hin.
  destruct (upb_inttable_lookup t key) as [v'|] eqn:E.
  - f_equal. eauto using NoDup_keys_functional, lookup_Some_In.
  - apply lookup_None_keys in E. destruct E. eauto using In_keys.
Qed.

Lemma insert_Ok t key v t' :
  upb_inttable_insert t key v = Ok t' <->
  upb_inttable_lookup t key = None /\ t' = (key, v) :: t.
Proof.
  unfold upb_inttable_insert.
  destruct (upb_inttable_lookup t key); split; intros H;
    try discriminate; try (destruct H; discriminate).
  - injection H as <-. auto.
  - destruct H as [_ ->]. reflexivity.
Qed.

Lemma insert_NoDup t key v t' :
  NoDup (keys t) -> upb_inttable_insert t key v = Ok t' -> NoDup (keys t').
Proof.
  intros Hnd [Hnone ->]%insert_Ok. simpl. apply NoDup_cons. split; [|done].
  rewrite list_elem_of_In. by apply lookup_None_keys.
Qed.

Lemma remove_keys_sub t key r t' :
  upb_inttable_remove t key = (r, t') -> forall k, In k (keys t') -> In k (keys t).
Proof.
  revert r t'. induction t as [|[k0 v0] t IH]; simpl; intros r t' H k.
  - by injection H as <- <-.
  - destruct (Z.eqb_spec k0 key).
    + injection H as <- <-. auto.
    + destruct (upb_inttable_remove t key) as [r1 t1]. injection H as <- <-.
      simpl. intros [->|Hin]; eauto.
Qed.

Lemma remove_NoDup t key r t' :
  NoDup (keys t) -> upb_inttable_remove t key = (r, t') -> NoDup (keys t').
Proof.
  revert r t'. induction t as [|[k0 v0] t IH]; simpl; intros r t' Hnd H.
  - by injection H as <- <-.
  - apply NoDup_cons in Hnd as [Hk Hnd]. destruct (Z.eqb_spec k0 key).
    + by injection H as <- <-.
    + destruct (upb_inttable_remove t key) as [r1 t1] eqn:E. injection H as <- <-.
      simpl. apply NoDup_cons. split; [|eauto].
      rewrite list_elem_of_In in *. eauto using remove_keys_sub.
Qed.

Lemma remove_result t key r t' :
  upb_inttable_remove t key = (r, t') -> r = upb_inttable_lookup t key.
Proof.
  revert r t'. induction t as [|[k0 v0] t IH]; simpl; intros r t' H.
  - by injection H as <- <-.
  - destruct (Z.eqb_spec k0 key).
    + by injection H as <- <-.
    + destruct (upb_inttable_remove t key) as [r1 t1]. injection H as <- <-. eauto.
Qed.

Lemma remove_miss t key :
  upb_inttable_lookup t key = None -> upb_inttable_remove t key = (None, t).
Proof.
  induction t as [|[k0 v0] t IH]; simpl; [done|].
  destruct (Z.eqb_spec k0 key); [done|]. intros H. by rewrite IH.
Qed.

Lemma remove_lookup_same t key r t' :
  NoDup (keys t) -> upb_inttable_remove t key = (r, t') ->
  upb_inttable_lookup t' key = None.
Proof.
  revert r t'. induction t as [|[k0 v0] t IH]; simpl; intros r t' Hnd H.
  - by injection H as <- <-.
  - apply NoDup_cons in Hnd as [Hk Hnd]. destruct (Z.eqb_spec k0 key).
    + injection H as <- <-. subst. apply lookup_None_keys.
      by rewrite <-list_elem_of_In.
    + destruct (upb_inttable_remove t key) as [r1 t1] eqn:E. injection H as <- <-.
      simpl. destruct (Z.eqb_spec k0 key); [done|]. eauto.
Qed.

Lemma remove_lookup_other t key r t' k :
  k <> key -> upb_inttable_remove t key = (r, t') ->
  upb_inttable_lookup t' k = upb_inttable_lookup t k.
Proof.
  intros Hne. revert r t'. induction t as [|[k0 v0] t IH]; simpl; intros r t' H.
  - by injection H as <- <-.
  - destruct (Z.eqb_spec k0 key).
    + injection H as <- <-. subst. by destruct (Z.eqb_spec key k).
    + destruct (upb_inttable_remove t key) as [r1 t1] eqn:E. injection H as <- <-.
      simpl. destruct (Z.eqb_spec k0 k); eauto.
Qed.

End TableFacts.

(** ** The monad *)

Section MonadFacts.

Context {A B : Type}.

Lemma bind_Ok (c : M A) (k : A -> M B) w b w' :
  bind c k w = Ok (b, w') <-> exists a w1, c w = Ok (a, w1) /\ k a w1 = Ok (b, w').
Proof.
  unfold bind. destruct (c w) as [[a w1]| |]; split.
  - eauto.
  - by intros (? & ? & [= <- <-] & ?).
  - discriminate.
  - by intros (? & ? & ? & ?).
  - discriminate.
  - by intros (? & ? & ? & ?).
Qed.

Lemma ret_Ok (a a' : A) w w' : ret a w = Ok (a', w') <-> a' = a /\ w' = w.
Proof. unfold ret. split; [by intros [= <- <-] | by intros [-> ->]]. Qed.

Lemma lift_Ok (r : outcome A) a w w' : lift r w = Ok (a, w') <-> r = Ok a /\ w' = w.
Proof.
  unfold lift. destruct r; split; try discriminate; try (by intros [? ?]).
  - by intros [= <- <-].
  - by intros [[= <-] ->].
Qed.

End MonadFacts.

Lemma deref_Ok p o w w' : deref p w = Ok (o, w') <-> objects w !! p = Some o /\ w' = w.
Proof.
  unfold deref. destruct (objects w !! p); split; try discriminate; try (by intros [? ?]).
  - by intros [= <- <-].
  - by intros [[= <-] ->].
Qed.

Lemma assert_Ok b u w w' : assert b w = Ok (u, w') <-> b = true /\ w' = w.
Proof.
  unfold assert. destruct b, u; split; try discriminate; try (by intros [? ?]).
  - by intros [= <-].
  - by intros [_ ->].
Qed.

Lemma modify_Ok f u w w' : modify f w = Ok (u, w') <-> w' = f w.
Proof. unfold modify. destruct u. split; [by intros [= <-] | by intros ->]. Qed.

Lemma get_world_Ok w0 w w' : get_world w = Ok (w0, w') <-> w0 = w /\ w' = w.
Proof. unfold get_world. split; [by intros [= <- <-] | by intros [-> ->]]. Qed.

(** Taking a successful run apart, call by call. *)
Ltac minv :=
  repeat match goal with
    | H : bind _ _ _ = Ok _ |- _ =>
        let a := fresh "a" in let w := fresh "w" in let E := fresh "E" in
        apply bind_Ok in H as (a & w & E & H)
    | H : ret _ _ = Ok _ |- _ => apply ret_Ok in H as [? ?]; simplify_eq
    | H : lift _ _ = Ok _ |- _ => apply lift_Ok in H as [? ?]; simplify_eq
    | H : deref _ _ = Ok _ |- _ => apply deref_Ok in H as [? ?]; simplify_eq
    | H : assert _ _ = Ok _ |- _ => apply assert_Ok in H as [? ?]; simplify_eq
    | H : modify _ _ = Ok _ |- _ => apply modify_Ok in H; simplify_eq
    | H : get_world _ = Ok _ |- _ => apply get_world_Ok in H as [? ?]; simplify_eq
    | H : fault _ = Ok _ |- _ => discriminate H
    | H : store _ _ _ = Ok _ |- _ => unfold store in H
    | H : release _ _ = Ok _ |- _ => unfold release in H
    | H : PyErr_SetString _ _ _ = Ok _ |- _ => unfold PyErr_SetString in H
    | H : Ok _ = Ok _ |- _ => simplify_eq
    | H : AssertFail = Ok _ |- _ => discriminate H
    | H : Fault = Ok _ |- _ => discriminate H
    end.

(** ** Well-formed worlds *)

Lemma evolves_refl w : evolves w w.
Proof. split; try lia; eauto. intros p o a o' H1 H2 H3. congruence. Qed.

Lemma evolves_trans w1 w2 w3 :
  wf w1 -> evolves w1 w2 -> evolves w2 w3 -> evolves w1 w3.
Proof.
  intros Hwf [O1 A1 W1 B1 R1 F1] [O2 A2 W2 B2 R2 F2]. split.
  - lia.
  - lia.
  - intros p o a Hp Ha. destruct (W1 p o a Hp Ha) as [(o' & Hp' & Ha')|[Hp' Ha']].
    + eauto.
    + right. pose proof (wf_object_range _ Hwf _ _ Hp).
      pose proof (wf_arena_range _ Hwf _ (wf_owned_live _ Hwf _ _ _ Hp Ha)).
      split; [apply R2 | apply F2]; auto; lia.
  - intros p o a o' Hp Hb Hp3.
    destruct (objects w2 !! p) as [o2|] eqn:Hp2.
    + eauto.
    + pose proof (wf_object_range _ Hwf _ _ Hp).
      rewrite R2 in Hp3; [discriminate | lia | done].
  - intros p Hlt Hp. apply R2; [lia | auto].
  - intros a Hlt Ha. apply F2; [lia | auto].
Qed.

Lemma wf_World0 : wf World0.
Proof.
  split; simpl; try lia.
  - intros p o H. by rewrite lookup_empty in H.
  - intros a H. by apply not_elem_of_empty in H.
  - intros p o a H. by rewrite lookup_empty in H.
  - intros p q o o' a H. by rewrite lookup_empty in H.
  - intros p o H. by rewrite lookup_empty in H.
Qed.

Lemma upd_frame w w' :
  wf w -> objects w' = objects w -> same_alloc w w' -> wf w' /\ evolves w w'.
Proof.
  intros [R1 R2 L1 L2 C P1 P2] Ho (Hn & Hl & Ha). split; split;
    rewrite ?Ho, ?Hn, ?Hl, ?Ha; try lia; eauto.
  intros p o a o' H1 H2 H3. congruence.
Qed.

Lemma upd_store_keep w w' p o o' :
  wf w -> objects w !! p = Some o ->
  owned_arena o' = owned_arena o -> cache_ok o' ->
  (forall a, ob_body o = ArenaBody a -> ob_body o' = ArenaBody a) ->
  objects w' = <[p := o']> (objects w) -> same_alloc w w' ->
  wf w' /\ evolves w w'.
Proof.
  intros [R1 R2 L1 L2 C P1 P2] Hp Hown Hc Hb Ho (Hn & Hl & Ha). split; split;
    rewrite ?Ho, ?Hn, ?Hl, ?Ha; try lia; eauto.
  - intros q oq. destruct (decide (p = q)) as [<-|Hne].
    + rewrite lookup_insert_eq. intros _. eauto.
    + rewrite lookup_insert_ne by done. eauto.
  - intros q oq a. destruct (decide (p = q)) as [<-|Hne].
    + rewrite lookup_insert_eq. intros [= <-]. rewrite Hown. eauto.
    + rewrite lookup_insert_ne by done. eauto.
  - intros q1 q2 o1 o2 a.
    destruct (decide (p = q1)) as [<-|Hne1]; destruct (decide (p = q2)) as [<-|Hne2];
      rewrite ?lookup_insert_eq, ?lookup_insert_ne by done; auto.
    + intros [= <-] H2 H3 H4. rewrite Hown in H3. eauto.
    + intros H1 [= <-] H3 H4. rewrite Hown in H4. eauto.
    + eauto.
  - intros q oq. destruct (decide (p = q)) as [<-|Hne].
    + rewrite lookup_insert_eq. by intros [= <-].
    + rewrite lookup_insert_ne by done. eauto.
  - intros q oq a Hq Hoq. left. destruct (decide (p = q)) as [<-|Hne].
    + rewrite lookup_insert_eq. exists o'. split; [done|]. congruence.
    + rewrite lookup_insert_ne by done. eauto.
  - intros q oq a oq' Hq Hoq. destruct (decide (p = q)) as [<-|Hne].
    + rewrite lookup_insert_eq. intros [= <-]. apply Hb. congruence.
    + rewrite lookup_insert_ne by done. congruence.
  - intros q Hlt Hq. rewrite lookup_insert_ne; [done|]. congruence.
Qed.

Lemma upd_store_own w w' p o o' a :
  wf w -> objects w !! p = Some o ->
  owned_arena o = None -> (forall a0, ob_body o <> ArenaBody a0) ->
  owned_arena o' = Some a -> a ∈ live_arenas w ->
  (forall q oq, objects w !! q = Some oq -> owned_arena oq <> Some a) ->
  cache_ok o' ->
  objects w' = <[p := o']> (objects w) -> same_alloc w w' ->
  wf w' /\ evolves w w'.
Proof.
  intros [R1 R2 L1 L2 C P1 P2] Hp Hnone Hnb Hown Hlive Hfree Hc Ho (Hn & Hl & Ha).
  split; split; rewrite ?Ho, ?Hn, ?Hl, ?Ha; try lia; eauto.
  - intros q oq. destruct (decide (p = q)) as [<-|Hne].
    + rewrite lookup_insert_eq. intros _. eauto.
    + rewrite lookup_insert_ne by done. eauto.
  - intros q oq a1. destruct (decide (p = q)) as [<-|Hne].
    + rewrite lookup_insert_eq. intros [= <-]. rewrite Hown. by intros [= <-].
    + rewrite lookup_insert_ne by done. eauto.
  - intros q1 q2 o1 o2 a1.
    destruct (decide (p = q1)) as [<-|Hne1]; destruct (decide (p = q2)) as [<-|Hne2];
      rewrite ?lookup_insert_eq, ?lookup_insert_ne by done; auto.
    + intros [= <-] H2 H3 H4. rewrite Hown in H3. injection H3 as <-.
      by destruct (Hfree _ _ H2).
    + intros H1 [= <-] H3 H4. rewrite Hown in H4. injection H4 as <-.
      by destruct (Hfree _ _ H1).
    + eauto.
  - intros q oq. destruct (decide (p = q)) as [<-|Hne].
    + rewrite lookup_insert_eq. by intros [= <-].
    + rewrite lookup_insert_ne by done. eauto.
  - intros q oq a1 Hq Hoq. left. destruct (decide (p = q)) as [<-|Hne].
    + congruence.
    + rewrite lookup_insert_ne by done. eauto.
  - intros q oq a1 oq' Hq Hoq. destruct (decide (p = q)) as [<-|Hne].
    + rewrite Hp in Hq. injection Hq as <-. by destruct (Hnb a1).
    + rewrite lookup_insert_ne by done. congruence.
  - intros q Hlt Hq. rewrite lookup_insert_ne; [done|]. congruence.
Qed.

Lemma upd_alloc w w' o :
  wf w -> owned_arena o = None -> cache_ok o ->
  objects w' = <[next_object w := o]> (objects w) ->
  next_object w' = next_object w + 1 ->
  live_arenas w' = live_arenas w -> next_arena w' = next_arena w ->
  wf w' /\ evolves w w'.
Proof.
  intros [R1 R2 L1 L2 C P1 P2] Hnone Hc Ho Hn Hl Ha.
  assert (Hfresh : forall q oq, objects w !! q = Some oq -> next_object w <> q).
  { intros q oq Hq <-. apply R1 in Hq. lia. }
  split; split; rewrite ?Ho, ?Hn, ?Hl, ?Ha; try lia; eauto.
  - intros q oq. destruct (decide (next_object w = q)) as [<-|Hne].
    + lia.
    + rewrite lookup_insert_ne by done. intros Hq. apply R1 in Hq. lia.
  - intros q oq a. destruct (decide (next_object w = q)) as [<-|Hne].
    + rewrite lookup_insert_eq. intros [= <-]. congruence.
    + rewrite lookup_insert_ne by done. eauto.
  - intros q1 q2 o1 o2 a.
    destruct (decide (next_object w = q1)) as [<-|Hne1];
      destruct (decide (next_object w = q2)) as [<-|Hne2];
      rewrite ?lookup_insert_eq, ?lookup_insert_ne by done; auto.
    + intros [= <-]. congruence.
    + intros _ [= <-]. congruence.
    + eauto.
  - intros q oq. destruct (decide (next_object w = q)) as [<-|Hne].
    + rewrite lookup_insert_eq. by intros [= <-].
    + rewrite lookup_insert_ne by done. eauto.
  - intros q oq a Hq Hoq. left. rewrite lookup_insert_ne by eauto. eauto.
  - intros q oq a oq' Hq Hoq. rewrite lookup_insert_ne by eauto. congruence.
  - intros q Hlt Hq. rewrite lookup_insert_ne by lia. done.
Qed.

Lemma upd_arena_new w w' :
  wf w ->
  objects w' = objects w -> next_object w' = next_object w ->
  live_arenas w' = {[next_arena w]} ∪ live_arenas w ->
  next_arena w' = next_arena w + 1 ->
  (wf w' /\ evolves w w') /\
  next_arena w ∈ live_arenas w' /\ (next_arena w ∉ live_arenas w) /\
  (forall q oq, objects w' !! q = Some oq -> owned_arena oq <> Some (next_arena w)).
Proof.
  intros [R1 R2 L1 L2 C P1 P2] Ho Hn Hl Ha.
  assert (Hfresh : next_arena w ∉ live_arenas w).
  { intros Hin. apply R2 in Hin. lia. }
  split; [split; split|]; rewrite ?Ho, ?Hn, ?Hl, ?Ha; try lia; eauto.
  - intros a [->%elem_of_singleton|Hin]%elem_of_union; [lia|].
    apply R2 in Hin. lia.
  - intros q oq a Hq Hoq. apply elem_of_union. eauto.
  - intros q oq a oq' H1 H2 H3. congruence.
  - intros a Hlt Hnin [->%elem_of_singleton|Hin]%elem_of_union; [lia | done].
  - split; [apply elem_of_union_l; by apply elem_of_singleton|]. split; [done|].
    intros q oq Hq Hoq. apply Hfresh. eauto.
Qed.

Lemma upd_dealloc_owner w w' p o a :
  wf w -> objects w !! p = Some o -> owned_arena o = Some a ->
  objects w' = delete p (objects w) -> next_object w' = next_object w ->
  live_arenas w' = live_arenas w ∖ {[a]} -> next_arena w' = next_arena w ->
  wf w' /\ evolves w w'.
Proof.
  intros [R1 R2 L1 L2 C P1 P2] Hp Hown Ho Hn Hl Ha.
  split; split; rewrite ?Ho, ?Hn, ?Hl, ?Ha; try lia.
  - intros q oq [Hne Hq]%lookup_delete_Some. eauto.
  - intros a1 [Hin _]%elem_of_difference. eauto.
  - intros q oq a1 [Hne Hq]%lookup_delete_Some Hoq. apply elem_of_difference.
    split; [eauto|]. intros ->%elem_of_singleton. eauto.
  - intros q1 q2 o1 o2 a1 [_ H1]%lookup_delete_Some [_ H2]%lookup_delete_Some. eauto.
  - intros q oq [Hne Hq]%lookup_delete_Some. eauto.
  - intros q oq a1 Hq Hoq. destruct (decide (p = q)) as [<-|Hne].
    + right. rewrite lookup_delete_eq. split; [done|].
      assert (a1 = a) as -> by congruence.
      intros [_ Hnot]%elem_of_difference. apply Hnot. by apply elem_of_singleton.
    + left. rewrite lookup_delete_ne by done. eauto.
  - intros q oq a1 oq' Hq Hoq [Hne Hq']%lookup_delete_Some. congruence.
  - intros q Hlt Hq. apply lookup_delete_None. auto.
  - intros a1 Hlt Hnin [Hin _]%elem_of_difference. done.
Qed.

Lemma upd_release w w' p :
  wf w -> (forall o, objects w !! p = Some o -> owned_arena o = None) ->
  objects w' = delete p (objects w) -> same_alloc w w' ->
  wf w' /\ evolves w w'.
Proof.
  intros [R1 R2 L1 L2 C P1 P2] Hnone Ho (Hn & Hl & Ha).
  split; split; rewrite ?Ho, ?Hn, ?Hl, ?Ha; try lia; eauto.
  - intros q oq [Hne Hq]%lookup_delete_Some. eauto.
  - intros q oq a1 [Hne Hq]%lookup_delete_Some Hoq. eauto.
  - intros q1 q2 o1 o2 a1 [_ H1]%lookup_delete_Some [_ H2]%lookup_delete_Some. eauto.
  - intros q oq [Hne Hq]%lookup_delete_Some. eauto.
  - intros q oq a1 Hq Hoq. left. rewrite lookup_delete_ne; [eauto|].
    intros <-. apply Hnone in Hq. congruence.
  - intros q oq a1 oq' Hq Hoq [Hne Hq']%lookup_delete_Some. congruence.
  - intros q Hlt Hq. apply lookup_delete_None. auto.
Qed.

(** ** The calls keep the world well-formed *)

Lemma sound_ret {A} (a : A) : sound (ret a).
Proof. intros w r w' Hwf H. minv. auto using evolves_refl. Qed.

Lemma sound_bind {A B} (c : M A) (k : A -> M B) :
  sound c -> (forall a, sound (k a)) -> sound (bind c k).
Proof.
  intros Hc Hk w r w' Hwf H. minv.
  destruct (Hc _ _ _ Hwf E) as [Hwf1 Hev1].
  destruct (Hk _ _ _ _ Hwf1 H) as [Hwf2 Hev2].
  eauto using evolves_trans.
Qed.

Lemma step_then w w1 w2 :
  wf w -> wf w1 /\ evolves w w1 -> (wf w1 -> wf w2 /\ evolves w1 w2) ->
  wf w2 /\ evolves w w2.
Proof.
  intros Hwf [Hwf1 Hev1] H. destruct (H Hwf1). eauto using evolves_trans.
Qed.

Lemma same_alloc_set_objects f w : same_alloc w (set_objects f w).
Proof. by repeat split. Qed.

Lemma sound_frame {A} (c : M A) :
  (forall w r w', c w = Ok (r, w') -> objects w' = objects w /\ same_alloc w w') ->
  sound c.
Proof. intros H w r w' Hwf Hc. destruct (H _ _ _ Hc). eauto using upd_frame. Qed.

Lemma store_keep w p o o' :
  wf w -> objects w !! p = Some o ->
  owned_arena o' = owned_arena o -> cache_ok o' ->
  (forall a, ob_body o = ArenaBody a -> ob_body o' = ArenaBody a) ->
  wf (set_objects (fun h => <[p := o']> h) w) /\
  evolves w (set_objects (fun h => <[p := o']> h) w).
Proof.
  intros. eapply upd_store_keep; eauto using same_alloc_set_objects.
Qed.

Lemma store_own w p o o' a :
  wf w -> objects w !! p = Some o ->
  owned_arena o = None -> (forall a0, ob_body o <> ArenaBody a0) ->
  owned_arena o' = Some a -> a ∈ live_arenas w ->
  (forall q oq, objects w !! q = Some oq -> owned_arena oq <> Some a) ->
  cache_ok o' ->
  wf (set_objects (fun h => <[p := o']> h) w) /\
  evolves w (set_objects (fun h => <[p := o']> h) w).
Proof.
  intros. eapply upd_store_own; eauto using same_alloc_set_objects.
Qed.

Lemma sound_PyErr_SetString exc msg : sound (PyErr_SetString exc msg).
Proof. apply sound_frame. intros w r w' H. minv. by repeat split. Qed.

Lemma sound_Py_INCREF op : sound (Py_INCREF op).
Proof.
  intros w r w' Hwf H. unfold Py_INCREF in H. minv.
  eapply store_keep; [done | eassumption | reflexivity | | auto].
  exact (wf_cache _ Hwf _ _ H0).
Qed.

Lemma PyModule_GetState_Some module st w w' :
  PyModule_GetState module w = Ok (Some st, w') <->
  w' = w /\ exists o, objects w !! module = Some o /\ ob_body o = ModuleBody st.
Proof.
  unfold PyModule_GetState. split.
  - intros H. minv. destruct (ob_body a) eqn:Hb; minv; eauto.
  - intros (-> & o & Ho & Hb). apply bind_Ok. exists o, w.
    rewrite deref_Ok, Hb. done.
Qed.

Lemma PyUpb_ModuleState_GetFromModule_Ok module s w w' :
  PyUpb_ModuleState_GetFromModule module w = Ok (s, w') <->
  s = module /\ w' = w /\
  exists o st, objects w !! module = Some o /\ ob_body o = ModuleBody st.
Proof.
  unfold PyUpb_ModuleState_GetFromModule. split.
  - intros H. minv. destruct a as [st|]; [|done].
    apply PyModule_GetState_Some in E as (-> & o & Ho & Hb). eauto 10.
  - intros (-> & -> & o & st & Ho & Hb). apply bind_Ok. exists (Some st), w.
    split; [apply PyModule_GetState_Some; eauto|].
    reflexivity.
Qed.

Lemma PyUpb_ModuleState_Get_Ok s w w' :
  PyUpb_ModuleState_Get w = Ok (s, w') <->
  s = default NULL (modules_by_index w) /\ w' = w /\
  exists o st, objects w !! s = Some o /\ ob_body o = ModuleBody st.
Proof.
  unfold PyUpb_ModuleState_Get, PyState_FindModule. rewrite bind_Ok. split.
  - intros (m & w1 & [= <- <-] & (-> & -> & H)%PyUpb_ModuleState_GetFromModule_Ok).
    split; [by destruct (modules_by_index w)|]. split; [done|].
    by destruct (modules_by_index w).
  - intros (-> & -> & H). eexists _, w. split; [reflexivity|].
    apply PyUpb_ModuleState_GetFromModule_Ok.
    by destruct (modules_by_index w).
Qed.

Lemma read_state_Ok s st w w' :
  read_state s w = Ok (st, w') <->
  w' = w /\ exists o, objects w !! s = Some o /\ ob_body o = ModuleBody st.
Proof.
  unfold read_state. split.
  - intros H. minv. destruct (ob_body a) eqn:Hb; minv; eauto.
  - intros (-> & o & Ho & Hb). apply bind_Ok. exists o, w.
    rewrite deref_Ok, Hb. done.
Qed.

Lemma write_state_Ok s st u w w' :
  write_state s st w = Ok (u, w') <->
  exists o, objects w !! s = Some o /\
    w' = set_objects (fun h => <[s := with_body (ModuleBody st) o]> h) w.
Proof.
  unfold write_state. split.
  - intros H. minv. eauto.
  - intros (o & Ho & ->). apply bind_Ok. exists o, w. rewrite deref_Ok.
    destruct u. done.
Qed.

Lemma sound_PyUpb_ModuleState_Get : sound PyUpb_ModuleState_Get.
Proof.
  apply sound_frame. intros w r w' (_ & -> & _)%PyUpb_ModuleState_Get_Ok.
  by repeat split.
Qed.

Lemma cache_update_keep w s o st t :
  wf w -> objects w !! s = Some o -> ob_body o = ModuleBody st ->
  NoDup (keys t) ->
  let st' := {| obj_cache := t; obj_cache_arena := obj_cache_arena st;
                arena_type := arena_type st |} in
  wf (set_objects (fun h => <[s := with_body (ModuleBody st') o]> h) w) /\
  evolves w (set_objects (fun h => <[s := with_body (ModuleBody st') o]> h) w).
Proof.
  intros Hwf Ho Hb Hnd st'. eapply store_keep; [done | eassumption | | |].
  - unfold owned_arena. simpl. by rewrite Hb.
  - exact Hnd.
  - intros x Hx. congruence.
Qed.

Lemma wf_cache_NoDup w s o st :
  wf w -> objects w !! s = Some o -> ob_body o = ModuleBody st ->
  NoDup (keys (obj_cache st)).
Proof.
  intros Hwf Ho Hb. pose proof (wf_cache _ Hwf _ _ Ho) as Hc.
  unfold cache_ok in Hc. by rewrite Hb in Hc.
Qed.

Lemma sound_PyUpb_ObjCache_Add key py_obj : sound (PyUpb_ObjCache_Add key py_obj).
Proof.
  intros w r w' Hwf H. unfold PyUpb_ObjCache_Add in H.
  apply bind_Ok in H as (s & w1 & (_ & -> & _)%PyUpb_ModuleState_Get_Ok & H).
  apply bind_Ok in H as (st & w1 & (-> & o & Ho & Hb)%read_state_Ok & H).
  apply bind_Ok in H as (t & w1 & (Hins & ->)%lift_Ok & H).
  apply write_state_Ok in H as (o' & Ho' & ->).
  assert (o' = o) as -> by congruence.
  eapply cache_update_keep; eauto using insert_NoDup, wf_cache_NoDup.
Qed.

Lemma sound_PyUpb_ObjCache_Delete val_init key :
  sound (PyUpb_ObjCache_Delete val_init key).
Proof.
  intros w r w' Hwf H. unfold PyUpb_ObjCache_Delete in H.
  apply bind_Ok in H as (s & w1 & (_ & -> & _)%PyUpb_ModuleState_Get_Ok & H).
  apply bind_Ok in H as (st & w1 & (-> & o & Ho & Hb)%read_state_Ok & H).
  destruct (upb_inttable_remove (obj_cache st) key) as [removed t] eqn:Hr.
  apply bind_Ok in H as (u & w1 & (o' & Ho' & ->)%write_state_Ok & H).
  apply assert_Ok in H as [_ ->].
  assert (o' = o) as -> by congruence.
  eapply cache_update_keep; eauto using remove_NoDup, wf_cache_NoDup.
Qed.

Lemma sound_PyUpb_ObjCache_Get key : sound (PyUpb_ObjCache_Get key).
Proof.
  unfold PyUpb_ObjCache_Get.
  apply sound_bind; [apply sound_PyUpb_ModuleState_Get | intros s].
  apply sound_bind; [|intros st].
  - apply sound_frame. intros w r w' (-> & _)%read_state_Ok. by repeat split.
  - destruct (upb_inttable_lookup (obj_cache st) key).
    + apply sound_bind; [apply sound_Py_INCREF | intros _; apply sound_ret].
    + apply sound_ret.
Qed.

Lemma upb_arena_free_Ok a u w w' :
  upb_arena_free a w = Ok (u, w') <->
  a ∈ live_arenas w /\
  w' = {| objects := objects w; next_object := next_object w;
          live_arenas := live_arenas w ∖ {[a]}; next_arena := next_arena w;
          modules_by_index := modules_by_index w;
          err_indicator := err_indicator w |}.
Proof.
  unfold upb_arena_free. destruct u. case_decide; split.
  - by intros [= <-].
  - by intros [_ ->].
  - discriminate.
  - by intros [? _].
Qed.

Lemma owned_arena_live w a o :
  wf w -> a ∈ live_arenas w ->
  ob_body o = ArenaBody a \/
  (exists st, ob_body o = ModuleBody st /\ obj_cache_arena st = a) ->
  owned_arena o = Some a.
Proof.
  intros Hwf Hin Hb. apply (wf_arena_range _ Hwf) in Hin.
  unfold owned_arena, NULL. destruct Hb as [->|(st & -> & <-)].
  - destruct (Z.eqb_spec a 0); [lia | done].
  - destruct (Z.eqb_spec (obj_cache_arena st) 0); [lia | done].
Qed.

Lemma PyUpb_ModuleDealloc_Ok module u w w' :
  PyUpb_ModuleDealloc module w = Ok (u, w') ->
  exists o st, objects w !! module = Some o /\ ob_body o = ModuleBody st /\
    upb_arena_free (obj_cache_arena st) w = Ok (u, w').
Proof.
  unfold PyUpb_ModuleDealloc. intros H.
  apply bind_Ok in H as ([st|] & w1 & E & H); [|discriminate].
  apply PyModule_GetState_Some in E as (-> & o & Ho & Hb). eauto.
Qed.

Lemma PyUpb_Arena_Get_Ok arena a w w' :
  PyUpb_Arena_Get arena w = Ok (a, w') <->
  w' = w /\ exists o, objects w !! arena = Some o /\ ob_body o = ArenaBody a.
Proof.
  unfold PyUpb_Arena_Get. split.
  - intros H. apply bind_Ok in H as (o & w1 & [Ho ->]%deref_Ok & H).
    destruct (ob_body o) eqn:Hb; try discriminate.
    apply ret_Ok in H as [-> ->]. eauto.
  - intros (-> & o & Ho & Hb). apply bind_Ok. exists o, w.
    by rewrite deref_Ok, Hb.
Qed.

(** What a successful [PyUpb_Arena_Dealloc] does: the arena of the wrapper is
    freed and the wrapper is gone. *)
Lemma PyUpb_Arena_Dealloc_Ok self u w w' :
  PyUpb_Arena_Dealloc self w = Ok (u, w') <->
  exists o a, objects w !! self = Some o /\ ob_body o = ArenaBody a /\
    a ∈ live_arenas w /\
    w' = {| objects := delete self (objects w); next_object := next_object w;
            live_arenas := live_arenas w ∖ {[a]}; next_arena := next_arena w;
            modules_by_index := modules_by_index w;
            err_indicator := err_indicator w |}.
Proof.
  unfold PyUpb_Arena_Dealloc, PyUpb_Dealloc, release. split.
  - intros H.
    apply bind_Ok in H as (a & w1 & (-> & o & Ho & Hb)%PyUpb_Arena_Get_Ok & H).
    apply bind_Ok in H as (u1 & w1 & [Hin ->]%upb_arena_free_Ok & H).
    apply modify_Ok in H as ->. exists o, a. done.
  - intros (o & a & Ho & Hb & Hin & ->). apply bind_Ok. exists a, w.
    split; [apply PyUpb_Arena_Get_Ok; eauto|].
    apply bind_Ok. eexists tt, _. split; [by apply upb_arena_free_Ok|].
    destruct u. reflexivity.
Qed.

Lemma sound_tp_dealloc op : sound (tp_dealloc op).
Proof.
  intros w r w' Hwf H. unfold tp_dealloc in H.
  apply bind_Ok in H as (o & w1 & [Ho ->]%deref_Ok & H).
  destruct (ob_body o) as [st|a| |] eqn:Hb.
  - unfold module_dealloc in H.
    apply bind_Ok in H as (u & w1 & E & H).
    apply PyUpb_ModuleDealloc_Ok in E as (o' & st' & Ho' & Hb' & E).
    assert (o' = o) as -> by congruence. assert (st' = st) as -> by congruence.
    apply upb_arena_free_Ok in E as [Hin ->].
    unfold release in H. apply modify_Ok in H as ->.
    eapply upd_dealloc_owner; [done | eassumption | | reflexivity..].
    eapply owned_arena_live; eauto.
  - apply PyUpb_Arena_Dealloc_Ok in H as (o' & a' & Ho' & Hb' & Hin & ->).
    assert (o' = o) as -> by congruence. assert (a' = a) as -> by congruence.
    eapply upd_dealloc_owner; [done | eassumption | | reflexivity..].
    eapply owned_arena_live; eauto.
  - unfold release in H. apply modify_Ok in H as ->.
    eapply upd_release; [done | | reflexivity | apply same_alloc_set_objects].
    intros o' Ho'. assert (o' = o) as -> by congruence.
    unfold owned_arena. by rewrite Hb.
  - unfold release in H. apply modify_Ok in H as ->.
    eapply upd_release; [done | | reflexivity | apply same_alloc_set_objects].
    intros o' Ho'. assert (o' = o) as -> by congruence.
    unfold owned_arena. by rewrite Hb.
Qed.

Lemma sound_Py_DECREF op : sound (Py_DECREF op).
Proof.
  intros w r w' Hwf H. unfold Py_DECREF in H.
  apply bind_Ok in H as (o & w1 & [Ho ->]%deref_Ok & H).
  apply bind_Ok in H as (u & w1 & E & H).
  unfold store in E. apply modify_Ok in E as ->.
  eapply (step_then _
            (set_objects (fun h => <[op := with_refcnt (ob_refcnt o - 1) o]> h) w));
    [done | |].
  - eapply store_keep; [done | eassumption | reflexivity | | auto].
    exact (wf_cache _ Hwf _ _ Ho).
  - intros Hwf1. destruct (_ =? 0).
    + eapply sound_tp_dealloc; eauto.
    + eapply sound_ret; eauto.
Qed.

Lemma sound_modify_slot s : sound (modify (set_modules_by_index s)).
Proof. apply sound_frame. intros w r w' ->%modify_Ok. by repeat split. Qed.

Lemma sound_get_world : sound get_world.
Proof. apply sound_frame. intros w r w' [_ ->]%get_world_Ok. by repeat split. Qed.

Lemma sound_PyState_AddModule module : sound (PyState_AddModule module).
Proof.
  unfold PyState_AddModule.
  apply sound_bind; [apply sound_Py_INCREF | intros _].
  apply sound_bind; [apply sound_get_world | intros w0].
  apply sound_bind; [apply sound_modify_slot | intros _].
  apply sound_bind; [|intros _; apply sound_ret].
  destruct (modules_by_index w0); [apply sound_Py_DECREF | apply sound_ret].
Qed.

Lemma alloc_object_Ok o p w w' :
  alloc_object o w = Ok (p, w') <->
  p = next_object w /\
  w' = {| objects := <[next_object w := o]> (objects w);
          next_object := next_object w + 1;
          live_arenas := live_arenas w; next_arena := next_arena w;
          modules_by_index := modules_by_index w;
          err_indicator := err_indicator w |}.
Proof.
  unfold alloc_object. split; [by intros [= <- <-] | by intros [-> ->]].
Qed.

Lemma sound_alloc_object o :
  owned_arena o = None -> cache_ok o -> sound (alloc_object o).
Proof.
  intros Hnone Hc w r w' Hwf [-> ->]%alloc_object_Ok.
  eapply upd_alloc; eauto.
Qed.

Lemma sound_PyModule_Create : sound PyModule_Create.
Proof. apply sound_alloc_object; [reflexivity | apply NoDup_nil_2]. Qed.

Lemma sound_PyType_GenericAlloc type : sound (PyType_GenericAlloc type).
Proof.
  intros w r w' Hwf H. unfold PyType_GenericAlloc in H.
  apply bind_Ok in H as (o & w1 & [Ho ->]%deref_Ok & H).
  destruct (ob_body o); try discriminate.
  eapply sound_alloc_object; [| |done|eassumption]; done.
Qed.

Lemma upb_arena_new_Ok a w w' :
  upb_arena_new w = Ok (a, w') <->
  a = next_arena w /\
  w' = {| objects := objects w; next_object := next_object w;
          live_arenas := {[next_arena w]} ∪ live_arenas w;
          next_arena := next_arena w + 1;
          modules_by_index := modules_by_index w;
          err_indicator := err_indicator w |}.
Proof.
  unfold upb_arena_new. split; [by intros [= <- <-] | by intros [-> ->]].
Qed.

Lemma PyType_GenericAlloc_Ok type p w w' :
  PyType_GenericAlloc type w = Ok (p, w') <->
  (exists t name, objects w !! type = Some t /\ ob_body t = ClassBody name) /\
  alloc_object {| ob_refcnt := 1; ob_body := PlainBody |} w = Ok (p, w').
Proof.
  unfold PyType_GenericAlloc. split.
  - intros H. apply bind_Ok in H as (t & w1 & [Ht ->]%deref_Ok & H).
    destruct (ob_body t) eqn:Hb; try discriminate. eauto.
  - intros [(t & name & Ht & Hb) H]. apply bind_Ok. exists t, w.
    by rewrite deref_Ok, Hb.
Qed.

Lemma PyUpb_Arena_New_Ok p w w' :
  PyUpb_Arena_New w = Ok (p, w') <->
  (exists o st t name,
      objects w !! default NULL (modules_by_index w) = Some o /\
      ob_body o = ModuleBody st /\
      objects w !! arena_type st = Some t /\ ob_body t = ClassBody name) /\
  p = next_object w /\ w' = world_with_wrapper w.
Proof.
  unfold PyUpb_Arena_New. split.
  - intros H.
    apply bind_Ok in H as (s & w1 & (-> & -> & _)%PyUpb_ModuleState_Get_Ok & H).
    apply bind_Ok in H as (st & w1 & (-> & o & Ho & Hb)%read_state_Ok & H).
    apply bind_Ok in H as (q & w1 & E & H).
    apply PyType_GenericAlloc_Ok in E as [(t & name & Ht & Hbt) [-> ->]%alloc_object_Ok].
    apply bind_Ok in H as (a & w2 & [-> ->]%upb_arena_new_Ok & H).
    apply bind_Ok in H as (o1 & w2 & [Ho1 ->]%deref_Ok & H).
    apply bind_Ok in H as (u & w2 & E & H). apply ret_Ok in H as [-> ->].
    unfold store in E. apply modify_Ok in E as ->.
    simpl in Ho1. rewrite lookup_insert_eq in Ho1. injection Ho1 as <-.
    split; [eauto 10|]. split; [done|].
    unfold world_with_wrapper, set_objects. simpl. f_equal.
    apply insert_insert_eq.
  - intros [(o & st & t & name & Ho & Hb & Ht & Hbt) [-> ->]].
    apply bind_Ok. eexists _, w. split; [apply PyUpb_ModuleState_Get_Ok; eauto 10|].
    apply bind_Ok. exists st, w. split; [apply read_state_Ok; eauto|].
    apply bind_Ok. eexists _, _. split.
    { apply PyType_GenericAlloc_Ok. split; [eauto|]. by apply alloc_object_Ok. }
    apply bind_Ok. eexists _, _. split; [by apply upb_arena_new_Ok|].
    apply bind_Ok. eexists _, _. split.
    { apply deref_Ok. split; [|done]. simpl. apply lookup_insert_eq. }
    apply bind_Ok. eexists tt, _. split; [apply modify_Ok; reflexivity|].
    apply ret_Ok. split; [done|].
    unfold world_with_wrapper, set_objects. simpl. f_equal.
    symmetry. apply insert_insert_eq.
Qed.

Lemma wf_world_with_wrapper w :
  wf w -> wf (world_with_wrapper w) /\ evolves w (world_with_wrapper w).
Proof.
  intros Hwf.
  set (w1 := {| objects := <[next_object w := {| ob_refcnt := 1; ob_body := PlainBody |}]>
                             (objects w);
                next_object := next_object w + 1;
                live_arenas := live_arenas w; next_arena := next_arena w;
                modules_by_index := modules_by_index w;
                err_indicator := err_indicator w |}).
  set (w2 := {| objects := objects w1; next_object := next_object w1;
                live_arenas := {[next_arena w1]} ∪ live_arenas w1;
                next_arena := next_arena w1 + 1;
                modules_by_index := modules_by_index w1;
                err_indicator := err_indicator w1 |}).
  assert (H1 : wf w1 /\ evolves w w1) by (eapply upd_alloc; eauto; done).
  destruct H1 as [Hwf1 Hev1].
  destruct (upd_arena_new w1 w2 Hwf1 eq_refl eq_refl eq_refl eq_refl)
    as ([Hwf2 Hev2] & Hlive & _ & Hfree).
  eapply step_then; [done | split; [exact Hwf1 | exact Hev1] | intros _].
  eapply step_then; [done | split; [exact Hwf2 | exact Hev2] | intros _].
  eapply (upd_store_own w2 _ (next_object w) {| ob_refcnt := 1; ob_body := PlainBody |}
            {| ob_refcnt := 1; ob_body := ArenaBody (next_arena w) |} (next_arena w));
    try done.
  - simpl. apply lookup_insert_eq.
  - unfold owned_arena, NULL. simpl. pose proof (wf_next_arena _ Hwf).
    destruct (Z.eqb_spec (next_arena w) 0); [lia | done].
  - simpl. symmetry. apply insert_insert_eq.
Qed.

Lemma sound_PyUpb_Arena_New : sound PyUpb_Arena_New.
Proof.
  intros w r w' Hwf (_ & _ & ->)%PyUpb_Arena_New_Ok.
  by apply wf_world_with_wrapper.
Qed.

Lemma sound_PyUpb_Forbidden_New cls args kwds :
  sound (PyUpb_Forbidden_New cls args kwds).
Proof.
  apply sound_frame. intros w r w' H. unfold PyUpb_Forbidden_New in H.
  apply bind_Ok in H as (name & w1 & E & H).
  unfold PyObject_GetAttrString_name in E.
  apply bind_Ok in E as (c & w2 & [Hc ->]%deref_Ok & E).
  apply bind_Ok in H as (u & w3 & E1 & H).
  unfold Py_XDECREF_name in H. minv.
  destruct name as [n|]; [|discriminate]. unfold PyErr_Format_forbidden in E1.
  destruct (ob_body c); minv; by repeat split.
Qed.

(** Reference counting never rewrites what an object holds. *)
Lemma Py_INCREF_Ok op u w w' :
  Py_INCREF op w = Ok (u, w') <->
  exists o, objects w !! op = Some o /\
    w' = set_objects (fun h => <[op := with_refcnt (ob_refcnt o + 1) o]> h) w.
Proof.
  unfold Py_INCREF, store. split.
  - intros H. apply bind_Ok in H as (o & w1 & [Ho ->]%deref_Ok & H).
    apply modify_Ok in H. eauto.
  - intros (o & Ho & ->). apply bind_Ok. exists o, w. rewrite deref_Ok.
    destruct u. done.
Qed.

Lemma tp_dealloc_objects op u w w' :
  tp_dealloc op w = Ok (u, w') ->
  objects w' = delete op (objects w) /\ modules_by_index w' = modules_by_index w.
Proof.
  unfold tp_dealloc. intros H.
  apply bind_Ok in H as (o & w1 & [Ho ->]%deref_Ok & H).
  destruct (ob_body o) as [st|a| |] eqn:Hb.
  - unfold module_dealloc in H. apply bind_Ok in H as (u1 & w1 & E & H).
    apply PyUpb_ModuleDealloc_Ok in E as (o' & st' & _ & _ & [_ ->]%upb_arena_free_Ok).
    unfold release in H. by apply modify_Ok in H as ->.
  - by apply PyUpb_Arena_Dealloc_Ok in H as (o' & a' & _ & _ & _ & ->).
  - unfold release in H. by apply modify_Ok in H as ->.
  - unfold release in H. by apply modify_Ok in H as ->.
Qed.

Lemma Py_DECREF_objects op u w w' :
  Py_DECREF op w = Ok (u, w') ->
  modules_by_index w' = modules_by_index w /\
  exists o, objects w !! op = Some o /\
    (objects w' = <[op := with_refcnt (ob_refcnt o - 1) o]> (objects w) \/
     objects w' = delete op (objects w)).
Proof.
  unfold Py_DECREF, store. intros H.
  apply bind_Ok in H as (o & w1 & [Ho ->]%deref_Ok & H).
  apply bind_Ok in H as (u1 & w1 & ->%modify_Ok & H).
  destruct (_ =? 0).
  - apply tp_dealloc_objects in H as [-> ->]. split; [done|].
    exists o. split; [done|]. right. simpl. apply delete_insert_eq.
  - apply ret_Ok in H as [_ ->]. split; [done|]. eauto.
Qed.

Lemma Py_DECREF_bodies op u w w' q o' :
  Py_DECREF op w = Ok (u, w') -> objects w' !! q = Some o' ->
  exists o, objects w !! q = Some o /\ ob_body o' = ob_body o.
Proof.
  intros (_ & o & Ho & [Hw|Hw])%Py_DECREF_objects; rewrite Hw.
  - destruct (decide (op = q)) as [<-|Hne].
    + rewrite lookup_insert_eq. intros [= <-]. eauto.
    + rewrite lookup_insert_ne by done. eauto.
  - intros [_ Hq]%lookup_delete_Some. eauto.
Qed.

Lemma PyState_AddModule_post module rc w w' :
  PyState_AddModule module w = Ok (rc, w') ->
  modules_by_index w' = Some module /\
  forall q o', objects w' !! q = Some o' ->
    exists o, objects w !! q = Some o /\ ob_body o' = ob_body o.
Proof.
  unfold PyState_AddModule. intros H.
  apply bind_Ok in H as (u & w1 & (o & Ho & ->)%Py_INCREF_Ok & H).
  apply bind_Ok in H as (w0 & w1 & [-> ->]%get_world_Ok & H).
  apply bind_Ok in H as (u1 & w1 & ->%modify_Ok & H).
  apply bind_Ok in H as (u2 & w2 & E & [_ ->]%ret_Ok).
  assert (Hin : forall q o', <[module := with_refcnt (ob_refcnt o + 1) o]> (objects w) !! q
                             = Some o' ->
                exists o0, objects w !! q = Some o0 /\ ob_body o' = ob_body o0).
  { intros q o'. destruct (decide (module = q)) as [<-|Hne].
    - rewrite lookup_insert_eq. intros [= <-]. eauto.
    - rewrite lookup_insert_ne by done. eauto. }
  simpl in E. destruct (modules_by_index w) as [old|].
  - split.
    + by apply Py_DECREF_objects in E as [-> _].
    + intros q o' Hq.
      destruct (Py_DECREF_bodies _ _ _ _ _ _ E Hq) as (o1 & Ho1 & ->). eauto.
  - apply ret_Ok in E as [_ ->]. split; [done|]. exact Hin.
Qed.

Lemma sound_not_ (c : M bool) : sound c -> sound (not_ c).
Proof. intros Hc. apply sound_bind; [done | intros x; apply sound_ret]. Qed.

Lemma sound_orelse (a b : M bool) : sound a -> sound b -> sound (orelse a b).
Proof.
  intros Ha Hb. apply sound_bind; [done | intros [|]; [apply sound_ret | done]].
Qed.

Lemma sound_assert b : sound (assert b).
Proof. apply sound_frame. intros w r w' [_ ->]%assert_Ok. by repeat split. Qed.

Lemma sound_fault {A} : sound (@fault A).
Proof. intros w r w' _ H. discriminate. Qed.

Lemma sound_PyUpb_GetClassName spec : sound (PyUpb_GetClassName spec).
Proof.
  unfold PyUpb_GetClassName. apply sound_bind; [apply sound_assert | intros _].
  destruct (strrchr _ _) as [[|c rest]|];
    [apply sound_fault | apply sound_ret | apply sound_fault].
Qed.

Lemma sound_PyUpb_AddClass r m spec : sound (PyUpb_AddClass r m spec).
Proof.
  unfold PyUpb_AddClass. apply sound_bind; [|intros type].
  - unfold PyType_FromSpec. destruct (type_from_spec_ok r); [|apply sound_ret].
    by apply sound_alloc_object.
  - apply sound_bind; [apply sound_PyUpb_GetClassName | intros name].
    destruct (negb _); [|apply sound_ret].
    apply sound_bind; [apply sound_ret | intros rc; apply sound_ret].
Qed.

Lemma sound_PyUpb_InitArena r m : sound (PyUpb_InitArena r m).
Proof.
  unfold PyUpb_InitArena. apply sound_bind; [|intros state].
  { apply sound_frame.
    intros w s w' (_ & -> & _)%PyUpb_ModuleState_GetFromModule_Ok. by repeat split. }
  apply sound_bind; [apply sound_PyUpb_AddClass | intros type].
  intros w b w' Hwf H.
  apply bind_Ok in H as (st & w1 & (-> & o & Ho & Hb)%read_state_Ok & H).
  apply bind_Ok in H as (u & w1 & (o' & Ho' & ->)%write_state_Ok & [_ ->]%ret_Ok).
  assert (o' = o) as -> by congruence.
  eapply store_keep; [done | eassumption | | |].
  - unfold owned_arena. simpl. by rewrite Hb.
  - unfold cache_ok. simpl. eauto using wf_cache_NoDup.
  - intros x Hx. congruence.
Qed.

Lemma sound_registration r m :
  sound (orelse (not_ (PyUpb_InitDescriptorContainers r m))
           (orelse (not_ (PyUpb_InitDescriptorPool r m))
              (orelse (not_ (PyUpb_InitDescriptor r m))
                 (not_ (PyUpb_InitArena r m))))).
Proof.
  repeat apply sound_orelse; apply sound_not_;
    try apply sound_ret. apply sound_PyUpb_InitArena.
Qed.

Lemma sound_PyInit__message r : sound (PyInit__message r).
Proof.
  intros w p w' Hwf H. unfold PyInit__message in H.
  apply bind_Ok in H as (m & w1 & Hcreate & H).
  destruct (sound_PyModule_Create _ _ _ Hwf Hcreate) as [Hwf1 Hev1].
  apply alloc_object_Ok in Hcreate as [-> Hw1].
  apply bind_Ok in H as (rc & w2 & Hadd & H).
  destruct (sound_PyState_AddModule _ _ _ _ Hwf1 Hadd) as [Hwf2 Hev2].
  apply PyState_AddModule_post in Hadd as [Hslot Hbodies].
  apply bind_Ok in H as (s & w3 & (-> & -> & o & st0 & Ho & Hb)%PyUpb_ModuleState_Get_Ok & H).
  rewrite Hslot in Ho, H. simpl in Ho, H.
  destruct (Hbodies _ _ Ho) as (o1 & Ho1 & Hb1).
  rewrite Hw1 in Ho1. simpl in Ho1. rewrite lookup_insert_eq in Ho1.
  injection Ho1 as <-. simpl in Hb1. rewrite Hb in Hb1. injection Hb1 as ->.
  apply bind_Ok in H as (a & w4 & [-> ->]%upb_arena_new_Ok & H).
  apply bind_Ok in H as (st & w5 & (-> & o2 & Ho2 & Hb2)%read_state_Ok & H).
  simpl in Ho2. assert (o2 = o) as -> by congruence.
  assert (st = zero_state) as -> by congruence.
  apply bind_Ok in H as (u & w6 & (o3 & Ho3 & ->)%write_state_Ok & H).
  simpl in Ho3. assert (o3 = o) as -> by congruence.
  apply bind_Ok in H as (failed & w7 & Hreg & H).
  eapply step_then; [done | split; [exact Hwf1 | exact Hev1] | intros _].
  eapply step_then; [done | split; [exact Hwf2 | exact Hev2] | intros _].
  destruct (upd_arena_new w2 (arena_added w2) Hwf2 eq_refl eq_refl eq_refl eq_refl)
    as (Hnew & Hlive & _ & Hfree).
  eapply step_then; [done | exact Hnew | intros Hwf4].
  eapply step_then; [done | | intros Hwf6].
  { eapply (store_own (arena_added w2) (next_object w) o
              (with_body (ModuleBody {| obj_cache := upb_inttable_init;
                                        obj_cache_arena := next_arena w2;
                                        arena_type := arena_type zero_state |}) o)
              (next_arena w2));
      [exact Hwf4 | exact Ho | | | | exact Hlive | exact Hfree | ].
    - unfold owned_arena. by rewrite Hb.
    - intros a0. by rewrite Hb.
    - unfold owned_arena, NULL. simpl. pose proof (wf_next_arena _ Hwf2).
      destruct (Z.eqb_spec (next_arena w2) 0); [lia | done].
    - apply NoDup_nil_2. }
  eapply step_then; [done | exact (sound_registration _ _ _ _ _ Hwf6 Hreg) | intros Hwf7].
  destruct failed.
  - apply bind_Ok in H as (u1 & w8 & Hdec & [_ ->]%ret_Ok).
    eapply sound_Py_DECREF; eauto.
  - apply bind_Ok in H as (u1 & w8 & [_ ->]%ret_Ok & [_ ->]%ret_Ok).
    auto using evolves_refl.
Qed.

Lemma sound_discard {A} (c : M A) : sound c -> sound (discard c).
Proof. intros Hc. apply sound_bind; [done | intros _; apply sound_ret]. Qed.

Lemma sound_step op : sound (step op).
Proof.
  destruct op; simpl;
    auto using sound_discard, sound_PyInit__message, sound_PyUpb_ObjCache_Add,
      sound_PyUpb_ObjCache_Delete, sound_PyUpb_ObjCache_Get, sound_PyUpb_Arena_New,
      sound_PyUpb_Forbidden_New, sound_Py_INCREF, sound_Py_DECREF.
Qed.

Lemma sound_run ops : sound (run ops).
Proof.
  induction ops as [|op ops IH]; simpl.
  - apply sound_ret.
  - apply sound_bind; [apply sound_step | intros _; exact IH].
Qed.

Lemma reachable_wf w : reachable w -> wf w.
Proof.
  induction 1 as [|w op w' _ IH Hstep]; [apply wf_World0|].
  by destruct (sound_step op _ _ _ IH Hstep).
Qed.

Lemma reachable_run ops w u w' :
  reachable w -> run ops w = Ok (u, w') -> reachable w'.
Proof.
  revert w. induction ops as [|op ops IH]; simpl; intros w Hr H.
  - by apply ret_Ok in H as [_ ->].
  - apply bind_Ok in H as ([] & w1 & Hstep & H).
    eapply IH; [|exact H]. eapply reachable_step; eauto.
Qed.

(** ** The cache calls, in terms of the table *)

Lemma module_state_Some w m o st :
  module_state w = Some (m, o, st) <->
  m = default NULL (modules_by_index w) /\ objects w !! m = Some o /\
  ob_body o = ModuleBody st.
Proof.
  unfold module_state. split.
  - destruct (objects w !! default NULL (modules_by_index w)) as [o'|] eqn:Ho; [|done].
    destruct (ob_body o') eqn:Hb; try done. by intros [= <- <- <-].
  - intros (-> & Ho & Hb). by rewrite Ho, Hb.
Qed.

Lemma cache_of_Some w t :
  cache_of w = Some t <->
  exists m o st, module_state w = Some (m, o, st) /\ obj_cache st = t.
Proof.
  unfold cache_of. destruct (module_state w) as [[[m o] st]|]; split.
  - intros [= <-]. eauto.
  - by intros (? & ? & ? & [= <- <- <-] & <-).
  - done.
  - by intros (? & ? & ? & ? & _).
Qed.

Lemma PyUpb_ModuleState_Get_module_state s w w' :
  PyUpb_ModuleState_Get w = Ok (s, w') <->
  w' = w /\ exists o st, module_state w = Some (s, o, st).
Proof.
  rewrite PyUpb_ModuleState_Get_Ok. split.
  - intros (-> & -> & o & st & Ho & Hb). split; [done|]. exists o, st.
    by apply module_state_Some.
  - intros (-> & o & st & (-> & Ho & Hb)%module_state_Some). eauto 10.
Qed.

Lemma PyUpb_ObjCache_Add_Ok key py_obj u w w' :
  PyUpb_ObjCache_Add key py_obj w = Ok (u, w') <->
  exists t, cache_of w = Some t /\ upb_inttable_lookup t key = None /\
    w' = with_cache ((key, py_obj) :: t) w.
Proof.
  unfold PyUpb_ObjCache_Add. split.
  - intros H.
    apply bind_Ok in H as (s & w1 & (-> & o & st & Hm)%PyUpb_ModuleState_Get_module_state & H).
    apply bind_Ok in H as (st' & w1 & (-> & o' & Ho' & Hb')%read_state_Ok & H).
    pose proof Hm as (-> & Ho & Hb)%module_state_Some.
    assert (o' = o) as -> by congruence. assert (st' = st) as -> by congruence.
    apply bind_Ok in H as (t & w1 & ([Hnone ->]%insert_Ok & ->)%lift_Ok & H).
    apply write_state_Ok in H as (o' & Ho'' & ->).
    assert (o' = o) as -> by congruence.
    exists (obj_cache st). split; [apply cache_of_Some; eauto|]. split; [done|].
    unfold with_cache. by rewrite Hm.
  - intros (t & (m & o & st & Hm & <-)%cache_of_Some & Hnone & ->).
    pose proof Hm as (-> & Ho & Hb)%module_state_Some.
    apply bind_Ok. eexists _, w. split.
    { apply PyUpb_ModuleState_Get_module_state. eauto. }
    apply bind_Ok. exists st, w. split; [apply read_state_Ok; eauto|].
    apply bind_Ok. eexists _, w. split.
    { apply lift_Ok. split; [|done]. apply insert_Ok. eauto. }
    apply write_state_Ok. exists o. split; [done|].
    unfold with_cache. by rewrite Hm.
Qed.

Lemma PyUpb_ObjCache_Delete_Ok val_init key u w w' :
  PyUpb_ObjCache_Delete val_init key w = Ok (u, w') <->
  exists t, cache_of w = Some t /\
    default val_init (upb_inttable_remove t key).1 <> NULL /\
    w' = with_cache (upb_inttable_remove t key).2 w.
Proof.
  unfold PyUpb_ObjCache_Delete. split.
  - intros H.
    apply bind_Ok in H as (s & w1 & (-> & o & st & Hm)%PyUpb_ModuleState_Get_module_state & H).
    apply bind_Ok in H as (st' & w1 & (-> & o' & Ho' & Hb')%read_state_Ok & H).
    pose proof Hm as (-> & Ho & Hb)%module_state_Some.
    assert (o' = o) as -> by congruence. assert (st' = st) as -> by congruence.
    exists (obj_cache st). split; [apply cache_of_Some; eauto|].
    destruct (upb_inttable_remove (obj_cache st) key) as [removed t'].
    apply bind_Ok in H as (u1 & w1 & (o' & Ho'' & ->)%write_state_Ok & H).
    assert (o' = o) as -> by congruence.
    apply assert_Ok in H as [Hne ->]. simpl. split.
    + unfold upb_value_getptr in Hne. destruct removed as [v|]; simpl;
        intros Heq; rewrite Heq in Hne; discriminate.
    + unfold with_cache. by rewrite Hm.
  - intros (t & (m & o & st & Hm & <-)%cache_of_Some & Hne & ->).
    pose proof Hm as (-> & Ho & Hb)%module_state_Some.
    apply bind_Ok. eexists _, w. split.
    { apply PyUpb_ModuleState_Get_module_state. eauto. }
    apply bind_Ok. exists st, w. split; [apply read_state_Ok; eauto|].
    destruct (upb_inttable_remove (obj_cache st) key) as [removed t'].
    simpl in *. apply bind_Ok. eexists tt, _. split.
    { apply write_state_Ok. eauto. }
    unfold with_cache. rewrite Hm. apply assert_Ok. destruct u. split; [|done].
    unfold upb_value_getptr. apply negb_true_iff, Z.eqb_neq.
    by destruct removed.
Qed.

Lemma PyUpb_ObjCache_Get_Ok key p w w' :
  PyUpb_ObjCache_Get key w = Ok (p, w') <->
  exists t, cache_of w = Some t /\
    match upb_inttable_lookup t key with
    | Some v => p = v /\ is_Some (objects w !! v) /\ w' = with_incref v w
    | None => p = NULL /\ w' = w
    end.
Proof.
  unfold PyUpb_ObjCache_Get. split.
  - intros H.
    apply bind_Ok in H as (s & w1 & (-> & o & st & Hm)%PyUpb_ModuleState_Get_module_state & H).
    apply bind_Ok in H as (st' & w1 & (-> & o' & Ho' & Hb')%read_state_Ok & H).
    pose proof Hm as (-> & Ho & Hb)%module_state_Some.
    assert (o' = o) as -> by congruence. assert (st' = st) as -> by congruence.
    exists (obj_cache st). split; [apply cache_of_Some; eauto|].
    destruct (upb_inttable_lookup (obj_cache st) key) as [v|].
    + apply bind_Ok in H as (u & w1 & (ov & Hv & ->)%Py_INCREF_Ok & [-> ->]%ret_Ok).
      unfold upb_value_getptr in *. split; [done|]. split; [eauto|].
      unfold with_incref. by rewrite Hv.
    + by apply ret_Ok in H as [-> ->].
  - intros (t & (m & o & st & Hm & <-)%cache_of_Some & H).
    pose proof Hm as (-> & Ho & Hb)%module_state_Some.
    apply bind_Ok. eexists _, w. split.
    { apply PyUpb_ModuleState_Get_module_state. eauto. }
    apply bind_Ok. exists st, w. split; [apply read_state_Ok; eauto|].
    destruct (upb_inttable_lookup (obj_cache st) key) as [v|].
    + destruct H as (-> & [ov Hv] & ->). apply bind_Ok. eexists tt, _. split.
      { apply Py_INCREF_Ok. eauto. }
      unfold with_incref, upb_value_getptr. rewrite Hv. done.
    + destruct H as [-> ->]. done.
Qed.

Lemma cache_of_with_cache t t' w :
  cache_of w = Some t -> cache_of (with_cache t' w) = Some t'.
Proof.
  intros (m & o & st & Hm & <-)%cache_of_Some.
  pose proof Hm as (-> & Ho & Hb)%module_state_Some.
  unfold with_cache. rewrite Hm. unfold cache_of, module_state. simpl.
  by rewrite lookup_insert_eq.
Qed.

Lemma cache_of_with_incref p w : cache_of (with_incref p w) = cache_of w.
Proof.
  unfold with_incref. destruct (objects w !! p) as [o|] eqn:Ho; [|done].
  unfold cache_of, module_state. simpl.
  destruct (decide (p = default NULL (modules_by_index w))) as [->|Hne].
  - rewrite lookup_insert_eq, Ho. simpl. by destruct (ob_body o).
  - by rewrite lookup_insert_ne.
Qed.

Lemma with_cache_same t w : cache_of w = Some t -> with_cache t w = w.
Proof.
  intros (m & o & st & Hm & <-)%cache_of_Some.
  pose proof Hm as (-> & Ho & Hb)%module_state_Some.
  unfold with_cache. rewrite Hm. destruct w as [objs no la na mi ei].
  unfold set_objects. simpl in *. f_equal. apply insert_id. rewrite Ho. f_equal.
  destruct o as [rc b]. simpl in *. subst b. unfold with_body. simpl.
  by destruct st.
Qed.

(** ** The object cache *)

Lemma reachable_loaded : reachable loaded.
Proof.
  eapply (reachable_run [OpInit all_ok] World0 tt); [apply reachable_start|].
  vm_compute. reflexivity.
Qed.

Lemma reachable_sample : reachable sample.
Proof.
  eapply (reachable_run [OpInit all_ok; OpArenaNew; OpAdd 4096 3] World0 tt);
    [apply reachable_start|].
  vm_compute. reflexivity.
Qed.

Lemma reachable_cache_NoDup w t :
  reachable w -> cache_of w = Some t -> NoDup (keys t).
Proof.
  intros Hr (m & o & st & (-> & Ho & Hb)%module_state_Some & <-)%cache_of_Some.
  eauto using wf_cache_NoDup, reachable_wf.
Qed.

(** C1. In every world the module reaches, the cache of the loaded module has
    at most one entry per key, so that it relates a key to at most one
    wrapper; [Add] takes its key from absent to present and, when its
    precondition holds, [Remove] takes it from present to absent, and neither
    touches another key. *)
Theorem obj_cache_identity_unique w t :
  reachable w -> cache_of w = Some t ->
  NoDup (keys t) /\
  (forall key w1 w2, In (key, w1) t -> In (key, w2) t -> w1 = w2) /\
  (forall key py_obj w',
      PyUpb_ObjCache_Add key py_obj w = Ok (tt, w') ->
      upb_inttable_lookup t key = None /\
      exists t', cache_of w' = Some t' /\
        upb_inttable_lookup t' key = Some py_obj /\
        forall k, k <> key -> upb_inttable_lookup t' k = upb_inttable_lookup t k) /\
  (forall val_init key w',
      is_Some (upb_inttable_lookup t key) ->
      PyUpb_ObjCache_Delete val_init key w = Ok (tt, w') ->
      exists t', cache_of w' = Some t' /\
        upb_inttable_lookup t' key = None /\
        forall k, k <> key -> upb_inttable_lookup t' k = upb_inttable_lookup t k).
Proof.
  intros Hr Ht. pose proof (reachable_cache_NoDup _ _ Hr Ht) as Hnd.
  split; [exact Hnd|]. split; [eauto using NoDup_keys_functional|]. split.
  - intros key py_obj w' (t0 & Ht0 & Hnone & ->)%PyUpb_ObjCache_Add_Ok.
    assert (t0 = t) as -> by congruence. split; [done|].
    exists ((key, py_obj) :: t). split; [eauto using cache_of_with_cache|].
    simpl. rewrite Z.eqb_refl. split; [done|].
    intros k Hne. by destruct (Z.eqb_spec key k).
  - intros val_init key w' _ (t0 & Ht0 & _ & ->)%PyUpb_ObjCache_Delete_Ok.
    assert (t0 = t) as -> by congruence.
    destruct (upb_inttable_remove t key) as [r t'] eqn:Hrem. simpl.
    exists t'. split; [eauto using cache_of_with_cache|].
    eauto using remove_lookup_same, remove_lookup_other.
Qed.

Lemma obj_cache_identity_unique_witness :
  reachable sample /\ cache_of sample = Some [(4096, 3)] /\
  NoDup (keys [(4096, 3)]).
Proof.
  split; [apply reachable_sample|]. split; [vm_compute; reflexivity|].
  apply (obj_cache_identity_unique sample [(4096, 3)] reachable_sample).
  vm_compute; reflexivity.
Defined.

Lemma PyUpb_ObjCache_Get_hit w t key v o :
  cache_of w = Some t ->
  upb_inttable_lookup t key = Some v -> objects w !! v = Some o ->
  PyUpb_ObjCache_Get key w =
    Ok (v, set_objects (fun h => <[v := with_refcnt (ob_refcnt o + 1) o]> h) w).
Proof.
  intros Ht Hv Ho. apply PyUpb_ObjCache_Get_Ok. exists t. split; [done|].
  rewrite Hv. split; [done|]. split; [eauto|].
  unfold with_incref. by rewrite Ho.
Qed.

Lemma PyUpb_ObjCache_Get_miss w t key :
  cache_of w = Some t -> upb_inttable_lookup t key = None ->
  PyUpb_ObjCache_Get key w = Ok (NULL, w).
Proof.
  intros Ht Hnone. apply PyUpb_ObjCache_Get_Ok. exists t. split; [done|].
  by rewrite Hnone.
Qed.

Lemma PyUpb_ObjCache_Get_cache key p w w' :
  PyUpb_ObjCache_Get key w = Ok (p, w') -> cache_of w' = cache_of w.
Proof.
  intros (t & Ht & H)%PyUpb_ObjCache_Get_Ok.
  destruct (upb_inttable_lookup t key) as [v|].
  - destruct H as (-> & _ & ->). apply cache_of_with_incref.
  - by destruct H as [-> ->].
Qed.

(** C2. When the cache has an entry for the key, [PyUpb_ObjCache_Get] returns
    the wrapper of that entry and the wrapper has one reference more, nothing
    else having changed; when it has none, the call returns NULL and the world
    is as it was. *)
Theorem PyUpb_ObjCache_Get_contract w t key :
  cache_of w = Some t ->
  (forall v o,
      upb_inttable_lookup t key = Some v -> objects w !! v = Some o ->
      PyUpb_ObjCache_Get key w =
        Ok (v, set_objects (fun h => <[v := with_refcnt (ob_refcnt o + 1) o]> h) w)) /\
  (upb_inttable_lookup t key = None -> PyUpb_ObjCache_Get key w = Ok (NULL, w)).
Proof.
  intros Ht. split; eauto using PyUpb_ObjCache_Get_hit, PyUpb_ObjCache_Get_miss.
Qed.

Lemma PyUpb_ObjCache_Get_contract_witness :
  cache_of sample = Some [(4096, 3)] /\
  PyUpb_ObjCache_Get 4096 sample =
    Ok (3, set_objects
             (fun h => <[3 := {| ob_refcnt := 2; ob_body := ArenaBody 2 |}]> h)
             sample).
Proof.
  split; [vm_compute; reflexivity|].
  apply (proj1 (PyUpb_ObjCache_Get_contract sample [(4096, 3)] 4096
                  ltac:(vm_compute; reflexivity))
           3 {| ob_refcnt := 1; ob_body := ArenaBody 2 |});
    vm_compute; reflexivity.
Defined.

(** C10. A call of [PyUpb_ObjCache_Get] that returns leaves the cache as it
    was: the only thing that differs afterwards is the reference count of the
    object it returned. *)
Theorem PyUpb_ObjCache_Get_readonly key p w w' :
  PyUpb_ObjCache_Get key w = Ok (p, w') ->
  cache_of w' = cache_of w /\
  (forall q, q <> p -> objects w' !! q = objects w !! q) /\
  (forall o', objects w' !! p = Some o' ->
     exists o, objects w !! p = Some o /\ ob_body o' = ob_body o) /\
  same_alloc w w' /\ modules_by_index w' = modules_by_index w /\
  err_indicator w' = err_indicator w.
Proof.
  intros (t & Ht & H)%PyUpb_ObjCache_Get_Ok.
  destruct (upb_inttable_lookup t key) as [v|].
  - destruct H as (-> & [o Ho] & ->). split; [apply cache_of_with_incref|].
    unfold with_incref. rewrite Ho. simpl. split.
    + intros q Hne. by rewrite lookup_insert_ne.
    + rewrite lookup_insert_eq. split; [|by repeat split].
      intros o' [= <-]. eauto.
  - destruct H as [-> ->]. repeat split; eauto.
Qed.

Lemma PyUpb_ObjCache_Get_readonly_witness :
  PyUpb_ObjCache_Get 4096 sample = Ok (3, with_incref 3 sample) /\
  cache_of (with_incref 3 sample) = cache_of sample.
Proof.
  assert (H : PyUpb_ObjCache_Get 4096 sample = Ok (3, with_incref 3 sample))
    by (vm_compute; reflexivity).
  split; [exact H|].
  exact (proj1 (PyUpb_ObjCache_Get_readonly 4096 3 sample (with_incref 3 sample) H)).
Defined.

(** C6. An [Add] for a key that has an entry does not return: the assertion
    of the table fails, and no world with the entry replaced comes out. *)
Theorem PyUpb_ObjCache_Add_duplicate_detected w t key w1 w2 :
  cache_of w = Some t -> upb_inttable_lookup t key = Some w1 ->
  PyUpb_ObjCache_Add key w2 w = AssertFail.
Proof.
  intros (m & o & st & Hm & <-)%cache_of_Some Hl.
  pose proof Hm as (-> & Ho & Hb)%module_state_Some.
  unfold PyUpb_ObjCache_Add, bind.
  assert (Hget : PyUpb_ModuleState_Get w = Ok (default NULL (modules_by_index w), w)).
  { apply PyUpb_ModuleState_Get_module_state. eauto. }
  rewrite Hget.
  assert (Hread : read_state (default NULL (modules_by_index w)) w = Ok (st, w)).
  { apply read_state_Ok. eauto. }
  rewrite Hread. unfold lift, upb_inttable_insert. by rewrite Hl.
Qed.

Lemma PyUpb_ObjCache_Add_duplicate_detected_witness :
  cache_of sample = Some [(4096, 3)] /\
  PyUpb_ObjCache_Add 4096 9 sample = AssertFail.
Proof.
  split; [vm_compute; reflexivity|].
  apply (PyUpb_ObjCache_Add_duplicate_detected sample [(4096, 3)] 4096 3 9);
    vm_compute; reflexivity.
Defined.

Lemma step_keeps_entry key v op w w' :
  cache_call_but_remove key op ->
  (exists t, cache_of w = Some t /\ upb_inttable_lookup t key = Some v) ->
  step op w = Ok (tt, w') ->
  exists t, cache_of w' = Some t /\ upb_inttable_lookup t key = Some v.
Proof.
  intros Hop (t & Ht & Hl) H. destruct op as [| k p | vi k | k | | | |];
    simpl in Hop; try done; simpl in H.
  - apply PyUpb_ObjCache_Add_Ok in H as (t0 & Ht0 & Hnone & ->).
    assert (t0 = t) as -> by congruence.
    exists ((k, p) :: t). split; [eauto using cache_of_with_cache|].
    simpl. destruct (Z.eqb_spec k key); [congruence | done].
  - apply PyUpb_ObjCache_Delete_Ok in H as (t0 & Ht0 & _ & ->).
    assert (t0 = t) as -> by congruence.
    destruct (upb_inttable_remove t k) as [r t'] eqn:Hrem. simpl.
    exists t'. split; [eauto using cache_of_with_cache|].
    rewrite <-Hl. eapply remove_lookup_other; eauto.
  - unfold discard in H. apply bind_Ok in H as (q & w1 & E & [_ ->]%ret_Ok).
    apply PyUpb_ObjCache_Get_cache in E as Hc. rewrite Hc. eauto.
Qed.

Lemma run_keeps_entry key v ops : forall w w',
  Forall (cache_call_but_remove key) ops ->
  (exists t, cache_of w = Some t /\ upb_inttable_lookup t key = Some v) ->
  run ops w = Ok (tt, w') ->
  exists t, cache_of w' = Some t /\ upb_inttable_lookup t key = Some v.
Proof.
  induction ops as [|op ops IH]; simpl; intros w w' Hall Hinv H.
  - by apply ret_Ok in H as [_ ->].
  - apply Forall_cons in Hall as [Hop Hall].
    apply bind_Ok in H as ([] & w1 & Hstep & H).
    eauto using step_keeps_entry.
Qed.

(** C3. After [Add(k, w)] has returned, and whatever calls on the cache
    follow that do not remove [k], a [Get(k)] on the wrapper, a live object,
    returns exactly [w] (and takes its reference). *)
Theorem PyUpb_ObjCache_Add_then_Get key py_obj w w1 :
  PyUpb_ObjCache_Add key py_obj w = Ok (tt, w1) ->
  forall ops w2 o,
    Forall (cache_call_but_remove key) ops ->
    run ops w1 = Ok (tt, w2) ->
    objects w2 !! py_obj = Some o ->
    PyUpb_ObjCache_Get key w2 =
      Ok (py_obj,
          set_objects (fun h => <[py_obj := with_refcnt (ob_refcnt o + 1) o]> h) w2).
Proof.
  intros (t & Ht & Hnone & ->)%PyUpb_ObjCache_Add_Ok ops w2 o Hall Hrun Ho.
  assert (Hinv : exists t1, cache_of (with_cache ((key, py_obj) :: t) w) = Some t1 /\
                            upb_inttable_lookup t1 key = Some py_obj).
  { exists ((key, py_obj) :: t). split; [eauto using cache_of_with_cache|].
    simpl. by rewrite Z.eqb_refl. }
  destruct (run_keeps_entry key py_obj ops _ _ Hall Hinv Hrun) as (t2 & Ht2 & Hl2).
  eauto using PyUpb_ObjCache_Get_hit.
Qed.

Lemma PyUpb_ObjCache_Add_then_Get_witness :
  PyUpb_ObjCache_Get 4096
    (world_of (run [OpAdd 8192 1; OpGet 4096; OpDelete 0 8192] sample)) =
  Ok (3, set_objects
           (fun h => <[3 := {| ob_refcnt := 3; ob_body := ArenaBody 2 |}]> h)
           (world_of (run [OpAdd 8192 1; OpGet 4096; OpDelete 0 8192] sample))).
Proof.
  apply (PyUpb_ObjCache_Add_then_Get 4096 3
           (world_of (run [OpInit all_ok; OpArenaNew] World0)) sample
           ltac:(vm_compute; reflexivity)
           [OpAdd 8192 1; OpGet 4096; OpDelete 0 8192] _
           {| ob_refcnt := 2; ob_body := ArenaBody 2 |}).
  - repeat constructor; simpl; lia.
  - vm_compute; reflexivity.
  - vm_compute; reflexivity.
Defined.

Lemma step_keeps_absent key op w w' :
  cache_call_but_add key op ->
  (exists t, cache_of w = Some t /\ upb_inttable_lookup t key = None) ->
  step op w = Ok (tt, w') ->
  exists t, cache_of w' = Some t /\ upb_inttable_lookup t key = None.
Proof.
  intros Hop (t & Ht & Hl) H. destruct op as [| k p | vi k | k | | | |];
    simpl in Hop; try done; simpl in H.
  - apply PyUpb_ObjCache_Add_Ok in H as (t0 & Ht0 & Hnone & ->).
    assert (t0 = t) as -> by congruence.
    exists ((k, p) :: t). split; [eauto using cache_of_with_cache|].
    simpl. destruct (Z.eqb_spec k key); [congruence | done].
  - apply PyUpb_ObjCache_Delete_Ok in H as (t0 & Ht0 & _ & ->).
    assert (t0 = t) as -> by congruence.
    destruct (upb_inttable_remove t k) as [r t'] eqn:Hrem. simpl.
    exists t'. split; [eauto using cache_of_with_cache|].
    destruct (decide (key = k)) as [<-|Hne].
    + rewrite (remove_miss _ _ Hl) in Hrem. congruence.
    + rewrite <-Hl. eapply remove_lookup_other; eauto.
  - unfold discard in H. apply bind_Ok in H as (q & w1 & E & [_ ->]%ret_Ok).
    apply PyUpb_ObjCache_Get_cache in E as Hc. rewrite Hc. eauto.
Qed.

Lemma run_keeps_absent key ops : forall w w',
  Forall (cache_call_but_add key) ops ->
  (exists t, cache_of w = Some t /\ upb_inttable_lookup t key = None) ->
  run ops w = Ok (tt, w') ->
  exists t, cache_of w' = Some t /\ upb_inttable_lookup t key = None.
Proof.
  induction ops as [|op ops IH]; simpl; intros w w' Hall Hinv H.
  - by apply ret_Ok in H as [_ ->].
  - apply Forall_cons in Hall as [Hop Hall].
    apply bind_Ok in H as ([] & w1 & Hstep & H).
    eauto using step_keeps_absent.
Qed.

(** C4. In a world the module reaches, [Remove(k)] of a key with a live
    entry returns, and from then on, whatever calls on the cache follow that
    do not add [k] again, [Get(k)] returns NULL: the wrapper that was
    registered is not handed out any more. *)
Theorem PyUpb_ObjCache_Delete_then_Get w t key v val_init :
  reachable w -> cache_of w = Some t ->
  upb_inttable_lookup t key = Some v -> v <> NULL ->
  exists w1,
    PyUpb_ObjCache_Delete val_init key w = Ok (tt, w1) /\
    forall ops w2,
      Forall (cache_call_but_add key) ops ->
      run ops w1 = Ok (tt, w2) ->
      PyUpb_ObjCache_Get key w2 = Ok (NULL, w2).
Proof.
  intros Hr Ht Hl Hv. pose proof (reachable_cache_NoDup _ _ Hr Ht) as Hnd.
  destruct (upb_inttable_remove t key) as [r t'] eqn:Hrem.
  pose proof (remove_result _ _ _ _ Hrem) as ->.
  exists (with_cache t' w). split.
  - apply PyUpb_ObjCache_Delete_Ok. exists t. rewrite Hrem, Hl. done.
  - intros ops w2 Hall Hrun.
    assert (Hinv : exists t1, cache_of (with_cache t' w) = Some t1 /\
                              upb_inttable_lookup t1 key = None).
    { exists t'. split; [eauto using cache_of_with_cache|].
      eauto using remove_lookup_same. }
    destruct (run_keeps_absent key ops _ _ Hall Hinv Hrun) as (t2 & Ht2 & Hl2).
    eauto using PyUpb_ObjCache_Get_miss.
Qed.

Lemma PyUpb_ObjCache_Delete_then_Get_witness :
  exists w1,
    PyUpb_ObjCache_Delete 0 4096 sample = Ok (tt, w1) /\
    PyUpb_ObjCache_Get 4096 (world_of (run [OpAdd 8192 3; OpGet 8192] w1)) =
      Ok (NULL, world_of (run [OpAdd 8192 3; OpGet 8192] w1)).
Proof.
  destruct (PyUpb_ObjCache_Delete_then_Get sample [(4096, 3)] 4096 3 0
              reachable_sample ltac:(vm_compute; reflexivity)
              ltac:(vm_compute; reflexivity) ltac:(unfold NULL; lia))
    as (w1 & Hdel & Hget).
  exists w1. split; [exact Hdel|].
  assert (Hw1 : w1 = with_cache [] sample).
  { apply PyUpb_ObjCache_Delete_Ok in Hdel as (t & Ht & _ & ->).
    assert (t = [(4096, 3)]) as -> by (vm_compute in Ht; congruence).
    reflexivity. }
  apply (Hget [OpAdd 8192 3; OpGet 8192]).
  - repeat constructor; simpl; lia.
  - subst w1. vm_compute; reflexivity.
Defined.

(** ** Removal of a key that is not there *)

Lemma PyUpb_ObjCache_Delete_missing w t key val_init :
  cache_of w = Some t -> upb_inttable_lookup t key = None ->
  PyUpb_ObjCache_Delete val_init key w =
    if val_init =? NULL then AssertFail else Ok (tt, w).
Proof.
  intros Ht Hl. destruct (Z.eqb_spec val_init NULL) as [->|Hne].
  - destruct (PyUpb_ObjCache_Delete NULL key w) as [[[] w']| |] eqn:E; [|done|].
    + apply PyUpb_ObjCache_Delete_Ok in E as (t0 & Ht0 & Hv & _).
      assert (t0 = t) as -> by congruence.
      rewrite (remove_miss _ _ Hl) in Hv. done.
    + exfalso. apply cache_of_Some in Ht as (m & o & st & Hm & <-).
      pose proof Hm as (-> & Ho & Hb)%module_state_Some.
      unfold PyUpb_ObjCache_Delete, bind in E.
      assert (Hget : PyUpb_ModuleState_Get w = Ok (default NULL (modules_by_index w), w)).
      { apply PyUpb_ModuleState_Get_module_state. eauto. }
      rewrite Hget in E.
      assert (Hread : read_state (default NULL (modules_by_index w)) w = Ok (st, w)).
      { apply read_state_Ok. eauto. }
      rewrite Hread, (remove_miss _ _ Hl) in E.
      assert (Hwrite : exists w1,
                 write_state (default NULL (modules_by_index w)) st w = Ok (tt, w1)).
      { eexists. apply write_state_Ok. eauto. }
      destruct Hwrite as [w1 Hw1]. destruct st. simpl in E. rewrite Hw1 in E.
      discriminate.
  - apply PyUpb_ObjCache_Delete_Ok. exists t. rewrite (remove_miss _ _ Hl).
    simpl. split; [done|]. split; [done|]. symmetry. by apply with_cache_same.
Qed.

(** C5. On the loaded module with an empty cache, [PyUpb_ObjCache_Delete] of
    the key 4096, which has no entry, returns and leaves the world as it was
    when the variable [val] happens to hold a non-null word: the table writes
    [val] only when it finds an entry, and the assertion reads [val]. *)
Theorem PyUpb_ObjCache_Delete_missing_key_returns :
  cache_of loaded = Some [] /\
  PyUpb_ObjCache_Delete 1 4096 loaded = Ok (tt, loaded).
Proof.
  split; [vm_compute; reflexivity|].
  rewrite (PyUpb_ObjCache_Delete_missing loaded [] 4096 1);
    [reflexivity | vm_compute; reflexivity | reflexivity].
Qed.

(** ** The forbidden constructor *)

(** C9. Called on a class, whatever the arguments, [PyUpb_Forbidden_New]
    returns NULL with a RuntimeError set whose message contains the name of
    the class; nothing else in the world changes: no object is created and
    the cache is as it was. *)
Theorem PyUpb_Forbidden_New_raises w cls args kwds c name :
  objects w !! cls = Some c -> ob_body c = ClassBody name ->
  exists w',
    PyUpb_Forbidden_New cls args kwds w = Ok (NULL, w') /\
    err_indicator w' = Some (PyExc_RuntimeError, forbidden_message name) /\
    (exists before after,
        forbidden_message name = String.append before (String.append name after)) /\
    objects w' = objects w /\ next_object w' = next_object w /\
    live_arenas w' = live_arenas w /\ next_arena w' = next_arena w /\
    modules_by_index w' = modules_by_index w /\ cache_of w' = cache_of w.
Proof.
  intros Hc Hb.
  exists (set_err_indicator (Some (PyExc_RuntimeError, forbidden_message name)) w).
  split.
  - unfold PyUpb_Forbidden_New, PyObject_GetAttrString_name, bind, deref.
    rewrite Hc, Hb. reflexivity.
  - split; [reflexivity|]. split; [by eexists _, _|]. by repeat split.
Qed.

Lemma PyUpb_Forbidden_New_raises_witness :
  exists w',
    PyUpb_Forbidden_New 2 0 0 sample = Ok (NULL, w') /\
    err_indicator w' =
      Some (PyExc_RuntimeError,
            "Objects of type Arena may not be created directly."%string).
Proof.
  destruct (PyUpb_Forbidden_New_raises sample 2 0 0
              {| ob_refcnt := 1; ob_body := ClassBody "Arena" |} "Arena"
              ltac:(vm_compute; reflexivity) eq_refl)
    as (w' & Hcall & Herr & _).
  exists w'. split; [exact Hcall | exact Herr].
Defined.

(** ** Loading the module *)

(** C8. When the first registration step fails, [PyInit__message] returns
    NULL, but the module is not released: the interpreter's slot still holds
    it with one reference, [PyUpb_ModuleDealloc] has not run, the storage
    arena is still allocated, and the cache calls find the module state. *)
Theorem PyInit__message_failure_keeps_module :
  exists w',
    PyInit__message containers_fail World0 = Ok (NULL, w') /\
    modules_by_index w' = Some 1 /\
    objects w' !! 1 =
      Some {| ob_refcnt := 1;
              ob_body := ModuleBody {| obj_cache := []; obj_cache_arena := 1;
                                       arena_type := NULL |} |} /\
    cache_of w' = Some [] /\
    1 ∈ live_arenas w' /\
    state_after (PyUpb_ObjCache_Add 4096 7 w') <> None.
Proof.
  eexists. split; [vm_compute; reflexivity|].
  split; [reflexivity|]. split; [vm_compute; reflexivity|].
  split; [vm_compute; reflexivity|]. split; [|vm_compute; discriminate].
  match goal with
  | |- ?x ∈ ?X => apply (bool_decide_unpack (x ∈ X)); vm_compute; exact I
  end.
Qed.

Lemma PyInit__message_failure_general r :
  descriptor_containers_ok r && descriptor_pool_ok r && descriptor_ok r &&
    (type_from_spec_ok r && module_add_object_ok r) = false ->
  exists w',
    PyInit__message r World0 = Ok (NULL, w') /\
    modules_by_index w' = Some 1 /\
    cache_of w' = Some [] /\
    1 ∈ live_arenas w' /\
    exists o, objects w' !! 1 = Some o /\ ob_refcnt o = 1.
Proof.
  destruct r as [[|] [|] [|] [|] [|]]; simpl; intros H; try discriminate H;
    (eexists; split; [vm_compute; reflexivity|];
     split; [reflexivity|]; split; [vm_compute; reflexivity|];
     split;
     [match goal with
      | |- ?x ∈ ?X => apply (bool_decide_unpack (x ∈ X)); vm_compute; exact I
      end
     | eexists; split; [vm_compute; reflexivity | reflexivity]]).
Qed.

(** ** Arena wrappers *)

(** C7. In a world the module reaches, the wrapper [PyUpb_Arena_New] returns
    is a new object that holds a new arena, which no other object and no
    module state holds.  Whatever the module and the host do next, either the
    wrapper still exists, still holds that arena, the arena is still
    allocated and held by the wrapper alone, and [PyUpb_Arena_Dealloc] of the
    wrapper frees it; or the wrapper is gone and the arena has been freed, for
    good. *)
Theorem PyUpb_Arena_New_owns_arena w p w1 :
  reachable w -> PyUpb_Arena_New w = Ok (p, w1) ->
  exists a,
    (objects w !! p = None /\ (a ∉ live_arenas w)) /\
    objects w1 !! p = Some {| ob_refcnt := 1; ob_body := ArenaBody a |} /\
    a ∈ live_arenas w1 /\
    (forall q o, objects w1 !! q = Some o -> owned_arena o = Some a -> q = p) /\
    forall ops w2,
      run ops w1 = Ok (tt, w2) ->
      (exists o,
          objects w2 !! p = Some o /\ ob_body o = ArenaBody a /\
          a ∈ live_arenas w2 /\
          (forall q o', objects w2 !! q = Some o' -> owned_arena o' = Some a -> q = p) /\
          exists w3,
            PyUpb_Arena_Dealloc p w2 = Ok (tt, w3) /\
            (a ∉ live_arenas w3) /\ objects w3 !! p = None) \/
      (objects w2 !! p = None /\ (a ∉ live_arenas w2) /\
       forall ops' w3,
         run ops' w2 = Ok (tt, w3) ->
         objects w3 !! p = None /\ (a ∉ live_arenas w3)).
Proof.
  intros Hr (_ & -> & ->)%PyUpb_Arena_New_Ok.
  pose proof (reachable_wf _ Hr) as Hwf.
  destruct (wf_world_with_wrapper _ Hwf) as [Hwf1 Hev1].
  set (p := next_object w). set (a := next_arena w).
  set (o1 := {| ob_refcnt := 1; ob_body := ArenaBody a |}).
  assert (Hp1 : objects (world_with_wrapper w) !! p = Some o1)
    by apply lookup_insert_eq.
  assert (Ha : owned_arena o1 = Some a).
  { unfold owned_arena, NULL. simpl. pose proof (wf_next_arena _ Hwf).
    unfold a. destruct (Z.eqb_spec (next_arena w) 0); [lia | done]. }
  exists a. split; [split|].
  - destruct (objects w !! p) as [o|] eqn:Ho; [|done].
    apply (wf_object_range _ Hwf) in Ho. unfold p in Ho. lia.
  - intros Hin. apply (wf_arena_range _ Hwf) in Hin. unfold a in Hin. lia.
  - split; [exact Hp1|]. split; [exact (wf_owned_live _ Hwf1 _ _ _ Hp1 Ha)|].
    split.
    { intros q o Hq Hoq. exact (wf_owned_once _ Hwf1 _ _ _ _ _ Hq Hp1 Hoq Ha). }
    intros ops w2 Hrun.
    destruct (sound_run ops _ _ _ Hwf1 Hrun) as [Hwf2 Hev2].
    destruct (ev_owner _ _ Hev2 _ _ _ Hp1 Ha) as [(o2 & Hp2 & Ha2)|[Hp2 Ha2]].
    + left. exists o2.
      assert (Hb2 : ob_body o2 = ArenaBody a)
        by exact (ev_wrapper _ _ Hev2 _ _ _ _ Hp1 eq_refl Hp2).
      pose proof (wf_owned_live _ Hwf2 _ _ _ Hp2 Ha2) as Hlive2.
      split; [done|]. split; [done|]. split; [done|]. split.
      { intros q o' Hq Hoq. exact (wf_owned_once _ Hwf2 _ _ _ _ _ Hq Hp2 Hoq Ha2). }
      eexists. split; [apply PyUpb_Arena_Dealloc_Ok; eauto 10|]. simpl. split.
      * intros [_ Hn]%elem_of_difference. apply Hn. by apply elem_of_singleton.
      * apply lookup_delete_eq.
    + right. split; [done|]. split; [done|].
      intros ops' w3 Hrun'.
      destruct (sound_run ops' _ _ _ Hwf2 Hrun') as [Hwf3 Hev3].
      pose proof (ev_objects _ _ Hev2). pose proof (ev_arenas _ _ Hev2).
      split.
      * apply (ev_released _ _ Hev3); [|done]. simpl in *. unfold p. lia.
      * apply (ev_freed _ _ Hev3); [|done]. simpl in *. unfold a. lia.
Qed.

Lemma PyUpb_Arena_New_owns_arena_witness :
  reachable loaded /\
  PyUpb_Arena_New loaded = Ok (3, world_with_wrapper loaded) /\
  exists a,
    objects (world_with_wrapper loaded) !! 3 =
      Some {| ob_refcnt := 1; ob_body := ArenaBody a |} /\
    a ∈ live_arenas (world_with_wrapper loaded).
Proof.
  assert (H : PyUpb_Arena_New loaded = Ok (3, world_with_wrapper loaded))
    by (vm_compute; reflexivity).
  split; [apply reachable_loaded|]. split; [exact H|].
  destruct (PyUpb_Arena_New_owns_arena loaded 3 (world_with_wrapper loaded)
              reachable_loaded H) as (a & _ & Hobj & Hlive & _).
  exists a. split; [exact Hobj | exact Hlive].
Defined.

(** * Further properties of protobuf.c *)

(** ** Class names *)

Lemma strrchr_None s c : strrchr s c = None <-> ~ In c (chars s).
Proof.
  induction s as [|a s IH]; simpl; [tauto|].
  destruct (strrchr s c) as [r|].
  - split; [discriminate|]. intros H. exfalso.
    destruct (in_dec ascii_dec c (chars s)) as [Hin|Hnin]; [tauto|].
    by apply IH in Hnin.
  - destruct (Ascii.eqb_spec a c) as [->|Hne].
    + split; [discriminate | tauto].
    + split; [|done]. intros _ [Heq|Hin]; [done|]. by apply IH in Hin.
Qed.

(** The result of [strrchr] starts at the last occurrence. *)
Lemma strrchr_Some s c r :
  strrchr s c = Some r ->
  exists pre rest,
    s = String.append pre (String c rest) /\ r = String c rest /\
    ~ In c (chars rest).
Proof.
  revert r. induction s as [|a s IH]; simpl; intros r H; [discriminate|].
  destruct (strrchr s c) as [r'|] eqn:E.
  - injection H as <-. destruct (IH _ eq_refl) as (pre & rest & -> & -> & Hno).
    exists (String a pre), rest. done.
  - destruct (Ascii.eqb_spec a c) as [->|Hne]; [|discriminate].
    injection H as <-. exists EmptyString, s. split; [done|]. split; [done|].
    by apply strrchr_None.
Qed.

Lemma chars_append s1 s2 : chars (String.append s1 s2) = chars s1 ++ chars s2.
Proof. induction s1 as [|a s1 IH]; simpl; [done | by rewrite IH]. Qed.

Lemma strrchr_last pre c rest :
  ~ In c (chars rest) ->
  strrchr (String.append pre (String c rest)) c = Some (String c rest).
Proof.
  intros Hno. induction pre as [|a pre IH]; simpl.
  - apply strrchr_None in Hno. rewrite Hno. by rewrite Ascii.eqb_refl.
  - by rewrite IH.
Qed.

(** X1. [PyUpb_GetClassName] returns, without touching the world, the part of
    the qualified name after its rightmost dot: for a name [pre.base] whose
    [base] has no dot, it returns [base] (the empty name when the qualified
    name ends in a dot).  A name without any dot fails the assertion. *)
Theorem PyUpb_GetClassName_rightmost spec w :
  (forall pre base,
      spec_name spec = String.append pre (String "."%char base) ->
      ~ In "."%char (chars base) ->
      PyUpb_GetClassName spec w = Ok (base, w)) /\
  (~ In "."%char (chars (spec_name spec)) ->
   PyUpb_GetClassName spec w = AssertFail).
Proof.
  unfold PyUpb_GetClassName, bind. split.
  - intros pre base Hname Hno. rewrite Hname, (strrchr_last _ _ _ Hno). reflexivity.
  - intros Hno. apply strrchr_None in Hno. by rewrite Hno.
Qed.

Lemma PyUpb_GetClassName_rightmost_witness :
  PyUpb_GetClassName PyUpb_Arena_Spec sample = Ok ("Arena"%string, sample) /\
  PyUpb_GetClassName {| spec_name := "Arena" |} sample = AssertFail.
Proof.
  split.
  - apply (proj1 (PyUpb_GetClassName_rightmost PyUpb_Arena_Spec sample)
             "google.protobuf.pyext._message"%string "Arena"%string);
      [reflexivity|].
    simpl. intros H. repeat (destruct H as [H|H]; [discriminate H|]). exact H.
  - apply (proj2 (PyUpb_GetClassName_rightmost {| spec_name := "Arena" |} sample)).
    simpl. intros H. repeat (destruct H as [H|H]; [discriminate H|]). exact H.
Defined.

(** ** Registration of a class *)






(** ** The cache calls as functions of the table *)


Lemma PyUpb_ModuleState_Get_loaded w m o st :
  module_state w = Some (m, o, st) ->
  PyUpb_ModuleState_Get w = Ok (m, w) /\ read_state m w = Ok (st, w) /\
  forall st',
    write_state m st' w =
      Ok (tt, set_objects (fun h => <[m := with_body (ModuleBody st') o]> h) w).
Proof.
  intros Hm. pose proof Hm as (-> & Ho & Hb)%module_state_Some. split.
  { apply PyUpb_ModuleState_Get_module_state. eauto. }
  split; [apply read_state_Ok; eauto|].
  intros st'. apply write_state_Ok. eauto.
Qed.

Lemma PyUpb_ObjCache_Add_eq w t key py_obj :
  cache_of w = Some t ->
  PyUpb_ObjCache_Add key py_obj w =
    match upb_inttable_lookup t key with
    | Some _ => AssertFail
    | None => Ok (tt, with_cache ((key, py_obj) :: t) w)
    end.
Proof.
  intros (m & o & st & Hm & <-)%cache_of_Some.
  destruct (PyUpb_ModuleState_Get_loaded _ _ _ _ Hm) as (Hget & Hread & Hwrite).
  unfold PyUpb_ObjCache_Add, bind. rewrite Hget, Hread.
  unfold lift, upb_inttable_insert.
  destruct (upb_inttable_lookup (obj_cache st) key); [done|].
  rewrite Hwrite. unfold with_cache. by rewrite Hm.
Qed.

Lemma PyUpb_ObjCache_Delete_eq w t key val_init :
  cache_of w = Some t ->
  PyUpb_ObjCache_Delete val_init key w =
    if default val_init (upb_inttable_remove t key).1 =? NULL
    then AssertFail
    else Ok (tt, with_cache (upb_inttable_remove t key).2 w).
Proof.
  intros (m & o & st & Hm & <-)%cache_of_Some.
  destruct (PyUpb_ModuleState_Get_loaded _ _ _ _ Hm) as (Hget & Hread & Hwrite).
  unfold PyUpb_ObjCache_Delete, bind. rewrite Hget, Hread.
  destruct (upb_inttable_remove (obj_cache st) key) as [removed t'].
  rewrite Hwrite. unfold with_cache. rewrite Hm. simpl.
  unfold assert, upb_value_getptr.
  destruct removed as [v|]; simpl; by destruct (_ =? NULL).
Qed.

Lemma PyUpb_ObjCache_Get_eq w t key :
  cache_of w = Some t ->
  PyUpb_ObjCache_Get key w =
    match upb_inttable_lookup t key with
    | Some v =>
        match objects w !! v with
        | Some _ => Ok (v, with_incref v w)
        | None => Fault
        end
    | None => Ok (NULL, w)
    end.
Proof.
  intros (m & o & st & Hm & <-)%cache_of_Some.
  destruct (PyUpb_ModuleState_Get_loaded _ _ _ _ Hm) as (Hget & Hread & _).
  unfold PyUpb_ObjCache_Get, bind. rewrite Hget, Hread.
  destruct (upb_inttable_lookup (obj_cache st) key) as [v|]; [|done].
  unfold Py_INCREF, upb_value_getptr, bind, deref, with_incref, store, modify.
  by destruct (objects w !! v).
Qed.

Lemma with_cache_with_cache t t1 t2 w :
  cache_of w = Some t -> with_cache t2 (with_cache t1 w) = with_cache t2 w.
Proof.
  intros (m & o & st & Hm & <-)%cache_of_Some.
  pose proof Hm as (-> & Ho & Hb)%module_state_Some.
  unfold with_cache at 2 3. rewrite Hm.
  unfold with_cache, module_state. simpl. rewrite lookup_insert_eq. simpl.
  unfold set_objects. simpl. f_equal. apply insert_insert_eq.
Qed.



(** X5. [Add] followed by [Remove] of the same key is the identity: when
    [PyUpb_ObjCache_Add] of a non-null wrapper returns, the
    [PyUpb_ObjCache_Delete] of the key that follows returns too and gives
    back exactly the world before the [Add]. *)
Theorem PyUpb_ObjCache_Add_then_Delete key py_obj val_init w w1 :
  PyUpb_ObjCache_Add key py_obj w = Ok (tt, w1) -> py_obj <> NULL ->
  PyUpb_ObjCache_Delete val_init key w1 = Ok (tt, w).
Proof.
  intros (t & Ht & Hnone & ->)%PyUpb_ObjCache_Add_Ok Hnz.
  rewrite (PyUpb_ObjCache_Delete_eq _ ((key, py_obj) :: t));
    [|eauto using cache_of_with_cache].
  simpl. rewrite Z.eqb_refl. simpl.
  destruct (Z.eqb_spec py_obj NULL); [done|].
  by rewrite (with_cache_with_cache t), with_cache_same.
Qed.

Lemma PyUpb_ObjCache_Add_then_Delete_witness :
  PyUpb_ObjCache_Delete 0 8192 (with_cache [(8192, 3); (4096, 3)] sample) =
  Ok (tt, sample).
Proof.
  apply (PyUpb_ObjCache_Add_then_Delete 8192 3 0 sample).
  - vm_compute; reflexivity.
  - unfold NULL; lia.
Defined.

(** X6. A NULL wrapper can be registered, and the entry then cannot be used:
    for a key without an entry in a world the module reaches, [PyUpb_ObjCache_Add]
    of NULL returns; after it [PyUpb_ObjCache_Get] of the key faults on the
    null pointer it takes a reference to, and [PyUpb_ObjCache_Delete] of the
    key fails its assertion although the key has an entry. *)
Theorem PyUpb_ObjCache_Add_NULL w t key :
  reachable w -> cache_of w = Some t -> upb_inttable_lookup t key = None ->
  exists w1,
    PyUpb_ObjCache_Add key NULL w = Ok (tt, w1) /\
    cache_of w1 = Some ((key, NULL) :: t) /\
    PyUpb_ObjCache_Get key w1 = Fault /\
    forall val_init, PyUpb_ObjCache_Delete val_init key w1 = AssertFail.
Proof.
  intros Hwf%reachable_wf Ht Hnone. exists (with_cache ((key, NULL) :: t) w).
  assert (Ht1 : cache_of (with_cache ((key, NULL) :: t) w) = Some ((key, NULL) :: t))
    by eauto using cache_of_with_cache.
  split; [by rewrite (PyUpb_ObjCache_Add_eq _ t), Hnone|]. split; [done|]. split.
  - rewrite (PyUpb_ObjCache_Get_eq _ _ _ Ht1). simpl. rewrite Z.eqb_refl.
    apply cache_of_Some in Ht as (m & o & st & Hm & <-).
    unfold with_cache. rewrite Hm. simpl.
    pose proof Hm as (-> & Ho & Hb)%module_state_Some.
    pose proof (wf_object_range _ Hwf _ _ Ho) as Hpos.
    rewrite lookup_insert_ne by (unfold NULL in *; lia).
    destruct (objects w !! NULL) as [o0|] eqn:E; [|done].
    apply (wf_object_range _ Hwf) in E. unfold NULL in E. lia.
  - intros val_init. rewrite (PyUpb_ObjCache_Delete_eq _ _ _ _ Ht1). simpl.
    by rewrite Z.eqb_refl.
Qed.

Lemma PyUpb_ObjCache_Add_NULL_witness :
  exists w1,
    PyUpb_ObjCache_Add 8192 NULL sample = Ok (tt, w1) /\
    PyUpb_ObjCache_Get 8192 w1 = Fault /\
    PyUpb_ObjCache_Delete 1 8192 w1 = AssertFail.
Proof.
  destruct (PyUpb_ObjCache_Add_NULL sample [(4096, 3)] 8192
              reachable_sample
              ltac:(vm_compute; reflexivity) ltac:(vm_compute; reflexivity))
    as (w1 & Hadd & _ & Hget & Hdel).
  exists w1. split; [exact Hadd|]. split; [exact Hget | exact (Hdel 1)].
Defined.

(** ** References handed out by the cache *)

Lemma with_refcnt_with_refcnt n1 n2 o :
  with_refcnt n2 (with_refcnt n1 o) = with_refcnt n2 o.
Proof. reflexivity. Qed.

Lemma with_refcnt_same o : with_refcnt (ob_refcnt o) o = o.
Proof. by destruct o. Qed.

Lemma with_incref_live v o w :
  objects w !! v = Some o ->
  with_incref v w =
    set_objects (fun h => <[v := with_refcnt (ob_refcnt o + 1) o]> h) w.
Proof. intros Ho. unfold with_incref. by rewrite Ho. Qed.

(** X7. Each hit of [PyUpb_ObjCache_Get] adds exactly one reference: after
    [n] calls in a row for a key whose wrapper is a live object, the wrapper
    has [n] references more, and nothing else in the world has changed, the
    cache included. *)
Theorem PyUpb_ObjCache_Get_n_times key v t n : forall w o,
  cache_of w = Some t -> upb_inttable_lookup t key = Some v ->
  objects w !! v = Some o ->
  exists w',
    run (replicate n (OpGet key)) w = Ok (tt, w') /\
    objects w' !! v = Some (with_refcnt (ob_refcnt o + Z.of_nat n) o) /\
    (forall q, q <> v -> objects w' !! q = objects w !! q) /\
    cache_of w' = Some t /\ same_alloc w w' /\
    modules_by_index w' = modules_by_index w /\
    err_indicator w' = err_indicator w.
Proof.
  induction n as [|n IH]; intros w o Ht Hl Ho.
  - exists w. simpl. split; [done|]. split.
    { rewrite Ho, Z.add_0_r. by rewrite with_refcnt_same. }
    by repeat split.
  - set (o1 := with_refcnt (ob_refcnt o + 1) o).
    set (w1 := set_objects (fun h => <[v := o1]> h) w).
    assert (Hget : PyUpb_ObjCache_Get key w = Ok (v, w1)).
    { rewrite (PyUpb_ObjCache_Get_eq _ _ _ Ht), Hl, Ho.
      by rewrite (with_incref_live _ _ _ Ho). }
    assert (Ht1 : cache_of w1 = Some t).
    { rewrite <-Ht. unfold w1, o1. rewrite <-(with_incref_live _ _ _ Ho).
      apply cache_of_with_incref. }
    assert (Ho1 : objects w1 !! v = Some o1) by apply lookup_insert_eq.
    destruct (IH w1 o1 Ht1 Hl Ho1) as (w' & Hrun & Hv & Hother & Hc & Ha & Hs & He).
    exists w'. split.
    { simpl. unfold bind, discard, bind. rewrite Hget. simpl. exact Hrun. }
    split.
    { rewrite Hv. f_equal. unfold o1. rewrite with_refcnt_with_refcnt. simpl.
      f_equal. lia. }
    split.
    { intros q Hq. rewrite (Hother q Hq). simpl. by rewrite lookup_insert_ne. }
    split; [done|]. split; [|done].
    destruct Ha as (H1 & H2 & H3). by repeat split.
Qed.

Lemma PyUpb_ObjCache_Get_n_times_witness :
  exists w',
    run (replicate 3 (OpGet 4096)) sample = Ok (tt, w') /\
    objects w' !! 3 = Some {| ob_refcnt := 4; ob_body := ArenaBody 2 |}.
Proof.
  destruct (PyUpb_ObjCache_Get_n_times 4096 3 [(4096, 3)] 3 sample
              {| ob_refcnt := 1; ob_body := ArenaBody 2 |}
              ltac:(vm_compute; reflexivity) ltac:(vm_compute; reflexivity)
              ltac:(vm_compute; reflexivity))
    as (w' & Hrun & Hobj & _).
  exists w'. split; [exact Hrun | exact Hobj].
Defined.

(** X8. The reference a hit hands out is matched by one release: when the
    wrapper's count is not zero, [PyUpb_ObjCache_Get] followed by [Py_DECREF]
    of the pointer it returned gives back exactly the world before the
    call. *)
Theorem PyUpb_ObjCache_Get_then_DECREF w t key v o :
  cache_of w = Some t -> upb_inttable_lookup t key = Some v ->
  objects w !! v = Some o -> ob_refcnt o <> 0 ->
  exists w1,
    PyUpb_ObjCache_Get key w = Ok (v, w1) /\ Py_DECREF v w1 = Ok (tt, w).
Proof.
  intros Ht Hl Ho Hnz.
  exists (set_objects (fun h => <[v := with_refcnt (ob_refcnt o + 1) o]> h) w).
  split.
  { rewrite (PyUpb_ObjCache_Get_eq _ _ _ Ht), Hl, Ho.
    by rewrite (with_incref_live _ _ _ Ho). }
  unfold Py_DECREF, bind, deref, store, modify. simpl.
  rewrite lookup_insert_eq. simpl.
  replace (ob_refcnt o + 1 - 1) with (ob_refcnt o) by lia.
  destruct (Z.eqb_spec (ob_refcnt o) 0); [done|].
  unfold ret. do 2 f_equal. destruct w as [objs no la na mi ei].
  unfold set_objects. simpl in *. f_equal.
  rewrite insert_insert_eq. apply insert_id.
  by rewrite Ho, with_refcnt_with_refcnt, with_refcnt_same.
Qed.

Lemma PyUpb_ObjCache_Get_then_DECREF_witness :
  exists w1,
    PyUpb_ObjCache_Get 4096 sample = Ok (3, w1) /\
    Py_DECREF 3 w1 = Ok (tt, sample).
Proof.
  apply (PyUpb_ObjCache_Get_then_DECREF sample [(4096, 3)] 4096 3
           {| ob_refcnt := 1; ob_body := ArenaBody 2 |});
    [vm_compute; reflexivity.. | simpl; lia].
Defined.

Lemma with_cache_refcnt t w q :
  ob_refcnt <$> objects (with_cache t w) !! q = ob_refcnt <$> objects w !! q.
Proof.
  unfold with_cache. destruct (module_state w) as [[[m o] st]|] eqn:Hm; [|done].
  pose proof Hm as (-> & Ho & Hb)%module_state_Some. simpl.
  destruct (decide (default NULL (modules_by_index w) = q)) as [<-|Hne].
  - by rewrite lookup_insert_eq, Ho.
  - by rewrite lookup_insert_ne.
Qed.

Lemma with_cache_other t w q :
  q <> default NULL (modules_by_index w) ->
  objects (with_cache t w) !! q = objects w !! q.
Proof.
  intros Hne. unfold with_cache.
  destruct (module_state w) as [[[m o] st]|] eqn:Hm; [|done].
  pose proof Hm as (-> & Ho & Hb)%module_state_Some. simpl.
  by rewrite lookup_insert_ne.
Qed.

(** X9. The cache holds its wrappers without owning them: a returning
    [PyUpb_ObjCache_Add] or [PyUpb_ObjCache_Delete] changes no reference
    count, creates and releases no object, frees no arena; every object but
    the module, whose state holds the table, is exactly as it was. *)
Theorem cache_updates_take_no_reference w w1 :
  (exists key py_obj, PyUpb_ObjCache_Add key py_obj w = Ok (tt, w1)) \/
  (exists val_init key, PyUpb_ObjCache_Delete val_init key w = Ok (tt, w1)) ->
  (forall q, ob_refcnt <$> objects w1 !! q = ob_refcnt <$> objects w !! q) /\
  (forall q, q <> default NULL (modules_by_index w) ->
             objects w1 !! q = objects w !! q) /\
  same_alloc w w1 /\ modules_by_index w1 = modules_by_index w /\
  err_indicator w1 = err_indicator w.
Proof.
  assert (Hframe : forall t,
             same_alloc w (with_cache t w) /\
             modules_by_index (with_cache t w) = modules_by_index w /\
             err_indicator (with_cache t w) = err_indicator w).
  { intros t. unfold with_cache.
    destruct (module_state w) as [[[m o] st]|]; by repeat split. }
  intros [(key & py_obj & (t & _ & _ & ->)%PyUpb_ObjCache_Add_Ok)
         |(val_init & key & (t & _ & _ & ->)%PyUpb_ObjCache_Delete_Ok)];
    (split; [intros q; apply with_cache_refcnt|];
     split; [intros q Hq; by apply with_cache_other|]; apply Hframe).
Qed.

Lemma cache_updates_take_no_reference_witness :
  PyUpb_ObjCache_Add 4096 3 (world_of (run [OpInit all_ok; OpArenaNew] World0)) =
    Ok (tt, sample) /\
  ob_refcnt <$> objects sample !! 3 =
    ob_refcnt <$> objects (world_of (run [OpInit all_ok; OpArenaNew] World0)) !! 3.
Proof.
  assert (H : PyUpb_ObjCache_Add 4096 3
                (world_of (run [OpInit all_ok; OpArenaNew] World0)) = Ok (tt, sample))
    by (vm_compute; reflexivity).
  split; [exact H|].
  apply (cache_updates_take_no_reference
           (world_of (run [OpInit all_ok; OpArenaNew] World0)) sample).
  left. exists 4096, 3. exact H.
Defined.



(** ** Arena wrappers and their release *)

(** X11. Two calls of [PyUpb_Arena_New] in a row give two different wrappers
    holding two different arenas, both allocated afterwards, and
    [PyUpb_Arena_Get] reads each wrapper's own arena back without changing
    the world. *)
Theorem PyUpb_Arena_New_twice w p1 w1 p2 w2 :
  PyUpb_Arena_New w = Ok (p1, w1) -> PyUpb_Arena_New w1 = Ok (p2, w2) ->
  p1 <> p2 /\
  exists a1 a2,
    a1 <> a2 /\
    PyUpb_Arena_Get p1 w2 = Ok (a1, w2) /\ PyUpb_Arena_Get p2 w2 = Ok (a2, w2) /\
    a1 ∈ live_arenas w2 /\ a2 ∈ live_arenas w2.
Proof.
  intros (_ & -> & ->)%PyUpb_Arena_New_Ok (_ & -> & ->)%PyUpb_Arena_New_Ok.
  simpl. split; [lia|]. exists (next_arena w), (next_arena w + 1).
  split; [lia|]. split; [|split; [|split]].
  - apply PyUpb_Arena_Get_Ok. split; [done|].
    exists {| ob_refcnt := 1; ob_body := ArenaBody (next_arena w) |}.
    split; [|reflexivity].
    simpl. rewrite lookup_insert_ne by lia. apply lookup_insert_eq.
  - apply PyUpb_Arena_Get_Ok. split; [done|].
    exists {| ob_refcnt := 1; ob_body := ArenaBody (next_arena w + 1) |}.
    split; [|reflexivity].
    simpl. apply lookup_insert_eq.
  - simpl. apply elem_of_union_r, elem_of_union_l. by apply elem_of_singleton.
  - simpl. apply elem_of_union_l. by apply elem_of_singleton.
Qed.

Lemma PyUpb_Arena_New_twice_witness :
  PyUpb_Arena_New loaded = Ok (3, world_with_wrapper loaded) /\
  PyUpb_Arena_New (world_with_wrapper loaded) =
    Ok (4, world_with_wrapper (world_with_wrapper loaded)) /\
  3 <> 4.
Proof.
  assert (H1 : PyUpb_Arena_New loaded = Ok (3, world_with_wrapper loaded))
    by (vm_compute; reflexivity).
  assert (H2 : PyUpb_Arena_New (world_with_wrapper loaded) =
               Ok (4, world_with_wrapper (world_with_wrapper loaded)))
    by (vm_compute; reflexivity).
  split; [exact H1|]. split; [exact H2|].
  exact (proj1 (PyUpb_Arena_New_twice loaded 3 _ 4 _ H1 H2)).
Defined.



(** X13. Only the last reference frees: [Py_DECREF] of an arena wrapper whose
    arena is allocated runs [PyUpb_Arena_Dealloc] when the count was 1, which
    frees that arena and no other and releases the wrapper and no other
    object; with any other count it only lowers the count, and the wrapper
    and the arena stay. *)
Theorem Py_DECREF_arena_wrapper w p o a :
  objects w !! p = Some o -> ob_body o = ArenaBody a -> a ∈ live_arenas w ->
  (ob_refcnt o = 1 ->
   exists w1,
     Py_DECREF p w = Ok (tt, w1) /\
     objects w1 = delete p (objects w) /\
     live_arenas w1 = live_arenas w ∖ {[a]}) /\
  (ob_refcnt o <> 1 ->
   Py_DECREF p w =
     Ok (tt, set_objects (fun h => <[p := with_refcnt (ob_refcnt o - 1) o]> h) w)).
Proof.
  intros Ho Hb Ha. unfold Py_DECREF, bind, deref, store, modify. rewrite Ho.
  split; intros Hrc.
  - rewrite Hrc. simpl. unfold tp_dealloc, bind, deref. simpl.
    rewrite lookup_insert_eq. simpl. rewrite Hb.
    eexists. split.
    + apply PyUpb_Arena_Dealloc_Ok. eexists _, a. simpl.
      rewrite lookup_insert_eq. split; [done|]. simpl. done.
    + simpl. split; [apply delete_insert_eq | done].
  - destruct (Z.eqb_spec (ob_refcnt o - 1) 0); [lia | done].
Qed.

Lemma Py_DECREF_arena_wrapper_witness :
  exists w1,
    Py_DECREF 3 sample = Ok (tt, w1) /\
    objects w1 = delete 3 (objects sample) /\
    live_arenas w1 = live_arenas sample ∖ {[2]}.
Proof.
  apply (proj1 (Py_DECREF_arena_wrapper sample 3
                  {| ob_refcnt := 1; ob_body := ArenaBody 2 |} 2
                  ltac:(vm_compute; reflexivity) eq_refl
                  ltac:(apply (bool_decide_unpack (2 ∈ live_arenas sample));
                        vm_compute; exact I))).
  reflexivity.
Defined.



(** ** Loading the module, when every step succeeds *)



(** ** The storage arena of the cache *)

Lemma armed_bodies w w' :
  armed w ->
  (forall q o', objects w' !! q = Some o' ->
     exists o, objects w !! q = Some o /\ ob_body o' = ob_body o) ->
  armed w'.
Proof.
  intros Hw Hb p o' st Hp Hst. destruct (Hb _ _ Hp) as (o & Ho & Heq).
  eapply Hw; [exact Ho | congruence].
Qed.

Lemma armed_insert w w' p o :
  armed w -> objects w' = <[p := o]> (objects w) ->
  (forall st, ob_body o = ModuleBody st -> obj_cache_arena st <> NULL) ->
  armed w'.
Proof.
  intros Hw Hobj Ho q oq st. rewrite Hobj.
  destruct (decide (p = q)) as [<-|Hne].
  - rewrite lookup_insert_eq. intros [= <-]. apply Ho.
  - rewrite lookup_insert_ne by done. apply Hw.
Qed.

Lemma armed_same_objects w w' : armed w -> objects w' = objects w -> armed w'.
Proof. intros Hw Hobj p o st. rewrite Hobj. apply Hw. Qed.

Lemma armed_with_cache t w : armed w -> armed (with_cache t w).
Proof.
  intros Hw. unfold with_cache.
  destruct (module_state w) as [[[m o] st]|] eqn:Hm; [|done].
  pose proof Hm as (-> & Ho & Hb)%module_state_Some.
  eapply armed_insert; [exact Hw | reflexivity|].
  simpl. intros st' [= <-]. simpl. eauto.
Qed.

Lemma armed_with_incref p w : armed w -> armed (with_incref p w).
Proof.
  intros Hw. unfold with_incref. destruct (objects w !! p) as [o|] eqn:Ho; [|done].
  eapply armed_insert; [exact Hw | reflexivity|]. simpl. eauto.
Qed.

Lemma keeps_armed_ret {A} (a : A) : keeps_armed (ret a).
Proof. intros w r w' Hw [_ ->]%ret_Ok. done. Qed.

Lemma keeps_armed_bind {A B} (c : M A) (k : A -> M B) :
  keeps_armed c -> (forall a, keeps_armed (k a)) -> keeps_armed (bind c k).
Proof.
  intros Hc Hk w r w' Hw (a & w1 & E & H)%bind_Ok.
  exact (Hk a w1 r w' (Hc w a w1 Hw E) H).
Qed.

Lemma keeps_armed_Py_DECREF op : keeps_armed (Py_DECREF op).
Proof.
  intros w r w' Hw H. eapply armed_bodies; [exact Hw|].
  intros q o' Hq. destruct r. eauto using Py_DECREF_bodies.
Qed.

Lemma keeps_armed_Py_INCREF op : keeps_armed (Py_INCREF op).
Proof.
  intros w r w' Hw (o & Ho & ->)%Py_INCREF_Ok.
  eapply armed_insert; [exact Hw | reflexivity|]. simpl. eauto.
Qed.

Lemma keeps_armed_PyUpb_InitArena r m : keeps_armed (PyUpb_InitArena r m).
Proof.
  unfold PyUpb_InitArena. apply keeps_armed_bind; [|intros state].
  { intros w s w' Hw (_ & -> & _)%PyUpb_ModuleState_GetFromModule_Ok. done. }
  apply keeps_armed_bind; [|intros type].
  { unfold PyUpb_AddClass. apply keeps_armed_bind; [|intros type].
    - unfold PyType_FromSpec. destruct (type_from_spec_ok r); [|apply keeps_armed_ret].
      intros w q w' Hw [-> ->]%alloc_object_Ok.
      eapply armed_insert; [exact Hw | reflexivity | done].
    - apply keeps_armed_bind; [|intros name].
      + intros w q w' Hw H. unfold PyUpb_GetClassName in H.
        apply bind_Ok in H as (u & w1 & [_ ->]%assert_Ok & H).
        destruct (strrchr _ _) as [[|c rest]|]; try discriminate.
        by apply ret_Ok in H as [_ ->].
      + destruct (negb _); [|apply keeps_armed_ret].
        apply keeps_armed_bind; [apply keeps_armed_ret | intros rc; apply keeps_armed_ret]. }
  intros w b w' Hw H.
  apply bind_Ok in H as (st & w1 & (-> & o & Ho & Hb)%read_state_Ok & H).
  apply bind_Ok in H as (u & w1 & (o' & Ho' & ->)%write_state_Ok & [_ ->]%ret_Ok).
  assert (o' = o) as -> by congruence.
  eapply armed_insert; [exact Hw | reflexivity|].
  simpl. intros st' [= <-]. simpl. eauto.
Qed.

Lemma keeps_armed_not_ (c : M bool) : keeps_armed c -> keeps_armed (not_ c).
Proof.
  intros Hc. apply keeps_armed_bind; [done | intros x; apply keeps_armed_ret].
Qed.

Lemma keeps_armed_orelse (a b : M bool) :
  keeps_armed a -> keeps_armed b -> keeps_armed (orelse a b).
Proof.
  intros Ha Hb. apply keeps_armed_bind; [done|].
  intros [|]; [apply keeps_armed_ret | done].
Qed.

Lemma armed_PyInit__message r w p w' :
  wf w -> armed w -> PyInit__message r w = Ok (p, w') -> armed w'.
Proof.
  intros Hwf Hw H. unfold PyInit__message in H.
  apply bind_Ok in H as (m & w1 & Hcreate & H).
  destruct (sound_PyModule_Create _ _ _ Hwf Hcreate) as [Hwf1 _].
  apply alloc_object_Ok in Hcreate as [-> Hw1].
  apply bind_Ok in H as (rc & w2 & Hadd & H).
  destruct (sound_PyState_AddModule _ _ _ _ Hwf1 Hadd) as [Hwf2 _].
  apply PyState_AddModule_post in Hadd as [Hslot Hbodies].
  apply bind_Ok in H as (s & w3 & (-> & -> & o & st0 & Ho & Hb)%PyUpb_ModuleState_Get_Ok & H).
  rewrite Hslot in Ho, H. simpl in Ho, H.
  apply bind_Ok in H as (a & w4 & [-> ->]%upb_arena_new_Ok & H).
  apply bind_Ok in H as (st & w5 & (-> & o2 & Ho2 & Hb2)%read_state_Ok & H).
  apply bind_Ok in H as (u & w6 & (o3 & Ho3 & ->)%write_state_Ok & H).
  apply bind_Ok in H as (failed & w7 & Hreg & H).
  assert (Hw6 : armed (set_objects
                         (fun h => <[next_object w :=
                                       with_body
                                         (ModuleBody {| obj_cache := upb_inttable_init;
                                                        obj_cache_arena := next_arena w2;
                                                        arena_type := arena_type st |})
                                         o3]> h)
                         (arena_added w2))).
  { intros q oq stq. simpl. destruct (decide (next_object w = q)) as [<-|Hne].
    - rewrite lookup_insert_eq. intros [= <-] [= <-]. simpl.
      pose proof (wf_next_arena _ Hwf2). unfold NULL. lia.
    - rewrite lookup_insert_ne by done. intros Hq Hbq.
      destruct (Hbodies _ _ Hq) as (o1 & Ho1 & Hb1).
      rewrite Hw1 in Ho1. simpl in Ho1. rewrite lookup_insert_ne in Ho1 by done.
      eapply Hw; [exact Ho1 | congruence]. }
  assert (Hw7 : armed w7).
  { revert Hw6 Hreg. apply keeps_armed_orelse; [|apply keeps_armed_orelse;
                                                   [|apply keeps_armed_orelse]];
      apply keeps_armed_not_; try apply keeps_armed_ret.
    apply keeps_armed_PyUpb_InitArena. }
  destruct failed.
  - apply bind_Ok in H as (u1 & w8 & Hdec & [_ ->]%ret_Ok).
    eapply keeps_armed_Py_DECREF; eauto.
  - by apply bind_Ok in H as (u1 & w8 & [_ ->]%ret_Ok & [_ ->]%ret_Ok).
Qed.

Lemma PyUpb_Forbidden_New_objects cls args kwds p w w' :
  PyUpb_Forbidden_New cls args kwds w = Ok (p, w') -> objects w' = objects w.
Proof.
  intros H. unfold PyUpb_Forbidden_New in H.
  apply bind_Ok in H as (name & w1 & E & H).
  unfold PyObject_GetAttrString_name in E.
  apply bind_Ok in E as (c & w2 & [Hc ->]%deref_Ok & E).
  apply bind_Ok in H as (u & w3 & E1 & H).
  unfold Py_XDECREF_name in H. minv.
  destruct name as [n|]; [|discriminate]. unfold PyErr_Format_forbidden in E1.
  destruct (ob_body c); minv; done.
Qed.

Lemma armed_step op w w' :
  wf w -> armed w -> step op w = Ok (tt, w') -> armed w'.
Proof.
  intros Hwf Hw H. destruct op as [r | k p | vi k | k | | c a kw | p | p];
    simpl in H.
  - unfold discard in H. apply bind_Ok in H as (q & w1 & E & [_ ->]%ret_Ok).
    eauto using armed_PyInit__message.
  - apply PyUpb_ObjCache_Add_Ok in H as (t & _ & _ & ->). by apply armed_with_cache.
  - apply PyUpb_ObjCache_Delete_Ok in H as (t & _ & _ & ->). by apply armed_with_cache.
  - unfold discard in H. apply bind_Ok in H as (q & w1 & E & [_ ->]%ret_Ok).
    apply PyUpb_ObjCache_Get_Ok in E as (t & _ & E).
    destruct (upb_inttable_lookup t k).
    + destruct E as (_ & _ & ->). by apply armed_with_incref.
    + by destruct E as [_ ->].
  - unfold discard in H. apply bind_Ok in H as (q & w1 & E & [_ ->]%ret_Ok).
    apply PyUpb_Arena_New_Ok in E as (_ & _ & ->).
    eapply armed_insert; [exact Hw | reflexivity | done].
  - unfold discard in H. apply bind_Ok in H as (q & w1 & E & [_ ->]%ret_Ok).
    eauto using armed_same_objects, PyUpb_Forbidden_New_objects.
  - eapply keeps_armed_Py_INCREF; eauto.
  - eapply keeps_armed_Py_DECREF; eauto.
Qed.

Lemma reachable_armed w : reachable w -> armed w.
Proof.
  induction 1 as [|w op w' Hr IH Hstep].
  - intros p o st H. simpl in H. by rewrite lookup_empty in H.
  - eauto using armed_step, reachable_wf.
Qed.

(** X16. In every world the module reaches, arenas are neither shared nor
    dangling: an arena held by a wrapper or by a module state is allocated,
    two different objects never hold the same arena, every module object has
    its storage arena set, and no object lives at NULL. *)
Theorem reachable_arenas_owned_once w :
  reachable w ->
  (forall p o a, objects w !! p = Some o -> owned_arena o = Some a ->
     a ∈ live_arenas w) /\
  (forall p q o o' a,
     objects w !! p = Some o -> objects w !! q = Some o' ->
     owned_arena o = Some a -> owned_arena o' = Some a -> p = q) /\
  (forall p o st, objects w !! p = Some o -> ob_body o = ModuleBody st ->
     owned_arena o = Some (obj_cache_arena st)) /\
  objects w !! NULL = None.
Proof.
  intros Hr. pose proof (reachable_wf _ Hr) as Hwf.
  pose proof (reachable_armed _ Hr) as Ha.
  split; [exact (wf_owned_live _ Hwf)|]. split; [exact (wf_owned_once _ Hwf)|].
  split.
  - intros p o st Ho Hb. unfold owned_arena. rewrite Hb.
    destruct (Z.eqb_spec (obj_cache_arena st) NULL) as [Heq|_]; [|done].
    by destruct (Ha _ _ _ Ho Hb).
  - destruct (objects w !! NULL) as [o|] eqn:E; [|done].
    apply (wf_object_range _ Hwf) in E. unfold NULL in E. lia.
Qed.

Lemma reachable_arenas_owned_once_witness :
  reachable sample /\ objects sample !! NULL = None.
Proof.
  split; [apply reachable_sample|].
  apply (reachable_arenas_owned_once sample reachable_sample).
Defined.

(** X17. The storage arena of the cache lives exactly as long as its module:
    in a world the module reaches, the arena of the loaded module's state is
    allocated, and whatever the module and the host do next, either the
    module object still exists, still holds that arena, and the arena is
    still allocated, or the module object is gone and the arena has been
    freed. *)
Theorem storage_arena_lives_with_module w m o st :
  reachable w -> module_state w = Some (m, o, st) ->
  obj_cache_arena st ∈ live_arenas w /\
  forall ops w2,
    run ops w = Ok (tt, w2) ->
    (exists o2,
        objects w2 !! m = Some o2 /\ owned_arena o2 = Some (obj_cache_arena st) /\
        obj_cache_arena st ∈ live_arenas w2) \/
    (objects w2 !! m = None /\ (obj_cache_arena st ∉ live_arenas w2)).
Proof.
  intros Hr (_ & Ho & Hb)%module_state_Some.
  pose proof (reachable_wf _ Hr) as Hwf.
  assert (Ha : owned_arena o = Some (obj_cache_arena st)).
  { unfold owned_arena. rewrite Hb.
    destruct (Z.eqb_spec (obj_cache_arena st) NULL) as [Heq|_]; [|done].
    by destruct (reachable_armed _ Hr _ _ _ Ho Hb). }
  split; [exact (wf_owned_live _ Hwf _ _ _ Ho Ha)|].
  intros ops w2 Hrun.
  destruct (sound_run ops _ _ _ Hwf Hrun) as [Hwf2 Hev2].
  destruct (ev_owner _ _ Hev2 _ _ _ Ho Ha) as [(o2 & Ho2 & Ha2)|[Ho2 Ha2]].
  - left. exists o2. eauto using wf_owned_live.
  - by right.
Qed.

Lemma storage_arena_lives_with_module_witness :
  reachable sample /\ 1 ∈ live_arenas sample.
Proof.
  split; [apply reachable_sample|].
  exact (proj1 (storage_arena_lives_with_module sample 1
                  {| ob_refcnt := 2;
                     ob_body := ModuleBody {| obj_cache := [(4096, 3)];
                                              obj_cache_arena := 1;
                                              arena_type := 2 |} |}
                  {| obj_cache := [(4096, 3)]; obj_cache_arena := 1;
                     arena_type := 2 |}
                  reachable_sample ltac:(vm_compute; reflexivity))).
Defined.

(** ** String data *)

Lemma utf8_char_None c : utf8_char c = None <-> is_surrogate c = true.
Proof.
  unfold utf8_char, is_surrogate.
  destruct (Z.ltb_spec c 128); [split; [done | lia]|].
  destruct (Z.ltb_spec c 2048); [split; [done | lia]|].
  destruct (Z.ltb_spec c 65536); [|split; [done | lia]].
  destruct ((55296 <=? c) && (c <=? 57343)); split; done.
Qed.

Lemma PyUnicode_AsUTF8AndSize_None code_points :
  PyUnicode_AsUTF8AndSize code_points = None <->
  Exists (fun c => is_surrogate c = true) code_points.
Proof.
  induction code_points as [|c rest IH]; simpl.
  - split; [done | by intros ?%Exists_nil].
  - rewrite Exists_cons, <-IH, <-utf8_char_None.
    destruct (utf8_char c), (PyUnicode_AsUTF8AndSize rest); split; intros H;
      try done; try (destruct H; done); auto.
Qed.

(** X18. A NULL from [PyUpb_GetStrData] has two meanings, told apart by the
    argument only: it comes with no exception set exactly when the object is
    neither a str nor a bytes object, and with an exception set exactly when
    the object is a str that holds a surrogate code point; a bytes object
    always gives its buffer. *)
Theorem PyUpb_GetStrData_NULL obj :
  (PyUpb_GetStrData obj = NullNoError <-> obj = PyOtherObject) /\
  (PyUpb_GetStrData obj = NullErrorSet <->
   exists code_points,
     obj = PyUnicode code_points /\
     Exists (fun c => is_surrogate c = true) code_points) /\
  (forall buf, obj = PyBytes buf -> PyUpb_GetStrData obj = Data buf).
Proof.
  split; [|split].
  - destruct obj as [cps|buf|]; simpl; [|done..].
    destruct (PyUnicode_AsUTF8AndSize cps); done.
  - destruct obj as [cps|buf|]; simpl.
    + destruct (PyUnicode_AsUTF8AndSize cps) as [b|] eqn:E; split; try done.
      * intros (cps' & [= <-] & H%PyUnicode_AsUTF8AndSize_None). congruence.
      * intros _. exists cps. split; [done|]. by apply PyUnicode_AsUTF8AndSize_None.
    + split; [done | by intros (? & ? & _)].
    + split; [done | by intros (? & ? & _)].
  - by intros buf ->.
Qed.

Lemma PyUpb_GetStrData_NULL_witness :
  PyUpb_GetStrData (PyBytes [104; 105]) = Data [104; 105] /\
  PyUpb_GetStrData (PyUnicode [104; 55296]) = NullErrorSet.
Proof.
  split.
  - exact (proj2 (proj2 (PyUpb_GetStrData_NULL (PyBytes [104; 105]))) _ eq_refl).
  - apply (proj2 (proj1 (proj2 (PyUpb_GetStrData_NULL (PyUnicode [104; 55296]))))).
    exists [104; 55296]. split; [reflexivity|].
    apply Exists_cons_tl, Exists_cons_hd. reflexivity.
Defined.

Lemma c_string_full buf : c_string buf = buf <-> Forall (fun b => b <> 0) buf.
Proof.
  induction buf as [|b rest IH]; simpl; [split; [constructor | done]|].
  destruct (Z.eqb_spec b 0) as [->|Hne].
  - split; [done|]. by intros [? _]%Forall_cons.
  - rewrite Forall_cons, <-IH. split.
    + intros [= Heq]. by rewrite Heq.
    + intros [_ ->]. done.
Qed.

Lemma lor_nonzero a b : 0 <= b -> 0 < a -> Z.lor a b <> 0.
Proof. intros Hb Ha H. apply Z.lor_eq_0_iff in H as [-> _]. lia. Qed.

Lemma utf8_char_nonzero c buf :
  0 <= c -> utf8_char c = Some buf -> (Forall (fun b => b <> 0) buf <-> c <> 0).
Proof.
  intros Hc. unfold utf8_char.
  assert (H63 : forall x, 0 <= Z.land x 63) by (intros x; apply Z.land_nonneg; lia).
  assert (Hs : forall n, 0 <= Z.shiftr c n) by (intros n; by apply Z.shiftr_nonneg).
  destruct (Z.ltb_spec c 128).
  { intros [= <-]. split; [by intros [? _]%Forall_cons | by repeat constructor]. }
  destruct (Z.ltb_spec c 2048).
  { intros [= <-]. split; [lia|]. intros _.
    repeat constructor; apply lor_nonzero; auto; lia. }
  destruct (Z.ltb_spec c 65536).
  { destruct (is_surrogate c); [done|]. intros [= <-]. split; [lia|]. intros _.
    repeat constructor; apply lor_nonzero; auto; lia. }
  intros [= <-]. split; [lia|]. intros _.
  repeat constructor; apply lor_nonzero; auto; lia.
Qed.

Lemma PyUnicode_AsUTF8AndSize_nonzero code_points buf :
  Forall (fun c => 0 <= c) code_points ->
  PyUnicode_AsUTF8AndSize code_points = Some buf ->
  (Forall (fun b => b <> 0) buf <-> Forall (fun c => c <> 0) code_points).
Proof.
  revert buf. induction code_points as [|c rest IH]; simpl; intros buf Hpos H.
  - injection H as <-. split; constructor.
  - apply Forall_cons in Hpos as [Hc Hpos].
    destruct (utf8_char c) as [b|] eqn:Eb; [|done].
    destruct (PyUnicode_AsUTF8AndSize rest) as [bs|] eqn:Ebs; [|done].
    injection H as <-.
    rewrite Forall_app, Forall_cons, (utf8_char_nonzero _ _ Hc Eb), (IH _ Hpos eq_refl).
    done.
Qed.

(** X19. [PyUpb_GetStrData] hands out the data without their length, so the
    caller reads a C string, and that string is the whole data exactly when
    the object holds no zero: no 0 byte for a bytes object, no U+0000 for a
    str (whose UTF-8 form has a 0 byte only for that code point). *)
Theorem PyUpb_GetStrData_c_string obj buf :
  PyUpb_GetStrData obj = Data buf ->
  (forall ob_sval, obj = PyBytes ob_sval ->
     (c_string buf = buf <-> Forall (fun b => b <> 0) ob_sval)) /\
  (forall code_points, obj = PyUnicode code_points ->
     Forall (fun c => 0 <= c) code_points ->
     (c_string buf = buf <-> Forall (fun c => c <> 0) code_points)).
Proof.
  intros H. split.
  - intros ob_sval ->. simpl in H. injection H as <-. apply c_string_full.
  - intros cps -> Hpos. simpl in H.
    destruct (PyUnicode_AsUTF8AndSize cps) as [b|] eqn:E; [|done].
    injection H as <-. rewrite c_string_full.
    by apply PyUnicode_AsUTF8AndSize_nonzero.
Qed.

Lemma PyUpb_GetStrData_c_string_witness :
  PyUpb_GetStrData (PyUnicode [104; 233; 0; 105]) = Data [104; 195; 169; 0; 105] /\
  c_string [104; 195; 169; 0; 105] <> [104; 195; 169; 0; 105].
Proof.
  assert (H : PyUpb_GetStrData (PyUnicode [104; 233; 0; 105]) =
              Data [104; 195; 169; 0; 105]) by reflexivity.
  split; [exact H|].
  intros Hfull.
  apply (proj2 (PyUpb_GetStrData_c_string _ _ H) [104; 233; 0; 105] eq_refl) in Hfull.
  - apply Forall_cons in Hfull as [_ Hfull]. apply Forall_cons in Hfull as [_ Hfull].
    apply Forall_cons in Hfull as [Hz _]. by apply Hz.
  - repeat constructor; lia.
Defined.
